(** * simpleidentity: provider-to-account resolution, verified over a shallow embedding

    Shallow embedding of the Go sources of posilva/simpleidentity:
    - Go errors ([errors.New] sentinels, [fmt.Errorf] with and without [%w],
      [errors.Is]);
    - the public-key cache of package [certs] (cache.go);
    - the provider registry (factory.go), the guest, Google and Apple providers;
    - the DynamoDB accounts repository (ResolveIDByProvider, Create,
      enrichErrorWithOperationContext);
    - the authentication orchestrator (auth_service.go). *)

From Stdlib Require Import ZArith Lia.
From stdpp Require Import base gmap strings list pretty.

Set Warnings "-register-all".
Local Open Scope Z_scope.

(* ------------------------------------------------------------------ *)
(** ** Go errors *)

(** A Go [error] value as produced by this code base. [Sentinel s] is a
    package-level [errors.New(s)] variable (compared by identity under
    [errors.Is]; the sentinels of this code base all carry distinct texts,
    so the text identifies the variable). [Errorf msg (Some e)] is
    [fmt.Errorf] with a [%w] verb wrapping [e]; [Errorf msg None] is
    [fmt.Errorf] without [%w]. [TransactionCanceled reasons] is the AWS SDK
    [*types.TransactionCanceledException] with its cancellation reasons,
    each a pair of optional [Code] and optional [Message]. [NewError s]
    is an [errors.New(s)] value created on the spot (no sentinel is
    ever identical to it). *)
Inductive goerror :=
  | Sentinel (text : string)
  | Errorf (msg : string) (wrapped : option goerror)
  | TransactionCanceled (reasons : list (option string * option string))
  | NewError (text : string).

(** [errors.Is(err, target)] for a sentinel [target]: walk the [Unwrap]
    chain comparing each link with the target. *)
Fixpoint errors_Is (err : goerror) (target : string) : bool :=
  match err with
  | Sentinel s => bool_decide (s = target)
  | Errorf _ (Some inner) => errors_Is inner target
  | Errorf _ None => false
  | TransactionCanceled _ => false
  | NewError _ => false
  end.

(** Package [domain] sentinels (domain/auth.go). *)
Definition ErrProviderNotFound : string := "provider not found".
Definition ErrAccountNotFound : string := "account not found".
Definition ErrProviderIDOrAccountAlreadyExists : string :=
  "provider ID or account already exists".
Definition ErrMissingRequiredProviderAuthData : string :=
  "missing required provider authentication data".

(** [domain.EmptyAccountID]: the empty account id. *)
Definition EmptyAccountID : string := "".

(* ------------------------------------------------------------------ *)
(** ** Public-key cache (certs/cache.go) *)

Module Certs.

(** A Go [time.Time] as the number of nanoseconds since the Unix epoch. *)
Definition time := Z.

(** [t.Unix()] (and [t.UTC().Unix()], the location does not matter): the
    whole seconds since the epoch, rounded towards minus infinity since a
    [time.Time] keeps its nanoseconds in [0, 1e9). *)
Definition Unix (t : time) : Z := t / 1000000000.

Section Cache.
(** The [*rsa.PublicKey] values are opaque to the cache. *)
Context {PublicKey : Type}.

Record cacheEntry := { pubKey : PublicKey; expiresAt : Z }.

(** [simpleCacheManager.cache : map[string]cacheEntry]; the manager is
    the map itself, written [gmap string cacheEntry] below. *)
Definition NewSimpleCacheManager : gmap string cacheEntry := ∅.

(** [Get(id)] at wall-clock time [now]; [None] is the nil pointer. *)
Definition Get (cm : gmap string cacheEntry) (now : time) (id : string)
    : option PublicKey :=
  match cm !! id with
  | Some e => if bool_decide (Unix now < expiresAt e) then Some (pubKey e) else None
  | None => None
  end.

(** [Add(id, pub, expiresAt)]: unconditional insert. *)
Definition Add (cm : gmap string cacheEntry) (id : string) (pub : PublicKey)
    (t : time) : gmap string cacheEntry :=
  <[id := {| pubKey := pub; expiresAt := Unix t |}]> cm.

(** [Reset()]: deletes every key of the map. *)
Definition Reset (cm : gmap string cacheEntry) : gmap string cacheEntry :=
  map_fold (fun k _ acc => delete k acc) cm cm.

(** A sequence of the mutating calls on one manager, run in order. *)
Inductive cacheCall := CallAdd (id : string) (pub : PublicKey) (t : time) | CallReset.

Definition runCall (cm : gmap string cacheEntry) (c : cacheCall) : gmap string cacheEntry :=
  match c with
  | CallAdd id pub t => Add cm id pub t
  | CallReset => Reset cm
  end.

Definition runCalls (cm : gmap string cacheEntry) (cs : list cacheCall) : gmap string cacheEntry :=
  foldl runCall cm cs.

(** Whether a call is an [Add] for [id]. *)
Definition addsID (id : string) (c : cacheCall) : bool :=
  match c with CallAdd i _ _ => bool_decide (i = id) | CallReset => false end.

End Cache.
End Certs.

(* ------------------------------------------------------------------ *)
(** ** Collaborator results and provider interface (ports/providers.go) *)

(** Outcome of a call into code outside this repository (HTTP endpoints,
    the JWT library): a value or an error, never both. *)
Inductive result (A : Type) :=
  | Ok (a : A)
  | Err (e : goerror).
Arguments Ok {A} a.
Arguments Err {A} e.

(** [domain.ProviderType] is [type ProviderType string]. *)
Definition ProviderTypeGuest : string := "guest".
Definition ProviderTypeGoogle : string := "google".
Definition ProviderTypeApple : string := "apple".

(** [ports.AuthProvider]: [Authenticate(ctx, data map[string]string)
    (AuthResult, error)]. [Ok id] is a non-nil [AuthResult] whose [GetID()]
    is [id]; [Err e] is [(nil, e)]. *)
Record AuthProvider := { Authenticate : gmap string string -> result string }.

(* ------------------------------------------------------------------ *)
(** ** Guest provider (GuestProvider, providers/guest.go) *)

(** [GuestProvider.Authenticate]: returns [&guestAuthResult{ID: "guest-id"}]
    whatever the data map holds. *)
Definition GuestProvider_Authenticate (data : gmap string string) : result string :=
  Ok "guest-id".

Definition NewGuestProvider : AuthProvider :=
  {| Authenticate := GuestProvider_Authenticate |}.

(* ------------------------------------------------------------------ *)
(** ** Identity tokens *)

(** The JSON claims of a signed identity token, as far as either provider
    decodes them (plus [nonce], which only the Apple claims struct reads). *)
Record idTokenPayload := {
  p_iss : string; p_sub : string; p_aud : string;
  p_email : string; p_nonce : string }.

(** The token endpoint response ([tokenResponse] / [exchangeTokenResponse]);
    only [id_token] is used by the code. *)
Record tokenResponse := { AccessToken : string; TokenType : string; IDToken : string }.

(* ------------------------------------------------------------------ *)
(** ** Google provider (providers/google.go) *)

Definition GoogleAuthCodeFieldName : string := "token".

Record GoogleCredentials := {
  g_ClientID : string; g_ClientSecret : string; g_AuthURI : string;
  g_CertsURL : string; g_IDTokenExpectedIssuer : string; g_IDTokenExpectedAud : string }.

(** [googleIDTokenClaims]: [iss], [sub], [aud], [email] (no nonce field). *)
Record googleIDTokenClaims := {
  gc_Issuer : string; gc_Subject : string; gc_Audience : string; gc_Email : string }.

Definition decodeGoogleClaims (p : idTokenPayload) : googleIDTokenClaims :=
  {| gc_Issuer := p_iss p; gc_Subject := p_sub p; gc_Audience := p_aud p;
     gc_Email := p_email p |}.

Section Google.
Variable credentials : GoogleCredentials.
(** [p.exchangeAuthCode]: the form POST to [AuthURI] and the JSON decode of
    a 200 response; any failure is an error. *)
Variable exchangeAuthCode : string -> result tokenResponse.
(** [jwt.ParseWithClaims(idToken, ..., keyfunc, jwt.WithLeeway(30s))] with
    the keyfunc [fetchPublicKeyByID] (public-key cache, certs endpoint):
    [Ok p] when the library accepts the token, so [token.Valid] holds;
    otherwise the library's error. The library checks the signature; the
    claims struct declares its own [exp] field, which hides the embedded
    [RegisteredClaims] expiry from the JSON decoder, so the library sees no
    expiry to check. Nothing below depends on what the library accepts. *)
Variable parseIDToken : string -> result idTokenPayload.

Definition google_verifyIDToken (idToken : string) : result googleIDTokenClaims :=
  match parseIDToken idToken with
  | Err e => Err (Errorf ("token parse error " +:+ idToken +:+ ": ") (Some e))
  | Ok p =>
      let claims := decodeGoogleClaims p in
      if bool_decide (gc_Issuer claims <> g_IDTokenExpectedIssuer credentials)
      then Err (NewError "invalid issuer")
      else if bool_decide (gc_Audience claims <> g_IDTokenExpectedAud credentials)
      then Err (NewError "invalid audience")
      else Ok claims
  end.

Definition google_Authenticate (data : gmap string string) : result string :=
  match data !! GoogleAuthCodeFieldName with
  | None => Err (Sentinel ErrMissingRequiredProviderAuthData)
  | Some authToken =>
      match exchangeAuthCode authToken with
      | Err e => Err (Errorf "failed to exchange auth code: " (Some e))
      | Ok resp =>
          match google_verifyIDToken (IDToken resp) with
          | Err e => Err (Errorf "failed to verify id token: " (Some e))
          | Ok claims => Ok (gc_Subject claims)
          end
      end
  end.

Definition NewGoogleProvider : AuthProvider := {| Authenticate := google_Authenticate |}.
End Google.

(* ------------------------------------------------------------------ *)
(** ** Apple provider (providers/apple.go) *)

Definition AppleIdentityTokenFieldName : string := "identityToken".
Definition AppleAuthorizationCodeFieldName : string := "authorizationCode".
Definition AppleUserIDFieldName : string := "userID".
Definition AppleNonceFieldName : string := "nonce".
Definition AppleEmailFieldName : string := "email".

Record AppleCredentials := {
  a_ClientID : string; a_ClientSecret : string; a_CertsURL : string;
  a_AuthTokensURL : string; a_IDTokenExpectedAudience : string;
  a_IDTokenExpectedIssuer : string }.

(** [appleIDTokenClaims], restricted to the fields the code reads. *)
Record appleIDTokenClaims := {
  ac_Issuer : string; ac_Subject : string; ac_Audience : string;
  ac_Email : string; ac_Nonce : string }.

Definition decodeAppleClaims (p : idTokenPayload) : appleIDTokenClaims :=
  {| ac_Issuer := p_iss p; ac_Subject := p_sub p; ac_Audience := p_aud p;
     ac_Email := p_email p; ac_Nonce := p_nonce p |}.

Definition missingField (name : string) : goerror :=
  Errorf ("missing required field: " +:+ name) None.

Section Apple.
Variable credentials : AppleCredentials.
(** [p.exchangeAuthCodeByRefreshToken]: form POST to [AuthTokensURL]. *)
Variable exchangeAuthCodeByRefreshToken : string -> result tokenResponse.
(** [jwt.ParseWithClaims] with keyfunc [fetchPublicKeyByID], as for Google. *)
Variable parseIDToken : string -> result idTokenPayload.

Definition apple_verifyIDToken (idToken nonce email : string) : result appleIDTokenClaims :=
  match parseIDToken idToken with
  | Err e => Err (Errorf "token parser error: " (Some e))
  | Ok p =>
      let claims := decodeAppleClaims p in
      if bool_decide (ac_Issuer claims <> a_IDTokenExpectedIssuer credentials)
      then Err (NewError "invalid issuer")
      else if bool_decide (ac_Audience claims <> a_IDTokenExpectedAudience credentials)
      then Err (NewError "invalid audience")
      else if bool_decide (ac_Nonce claims <> nonce)
      then Err (NewError "invalid nonce")
      else if bool_decide (email <> "") && bool_decide (email <> ac_Email claims)
      then Err (NewError "invalid email")
      else Ok claims
  end.

Definition apple_Authenticate (data : gmap string string) : result string :=
  match data !! AppleIdentityTokenFieldName with
  | None => Err (missingField AppleIdentityTokenFieldName)
  | Some _ =>
  match data !! AppleAuthorizationCodeFieldName with
  | None => Err (missingField AppleAuthorizationCodeFieldName)
  | Some authCode =>
  match data !! AppleUserIDFieldName with
  | None => Err (missingField AppleUserIDFieldName)
  | Some userID =>
  match data !! AppleNonceFieldName with
  | None => Err (missingField AppleNonceFieldName)
  | Some nonce =>
  match data !! AppleEmailFieldName with
  | None => Err (missingField AppleEmailFieldName)
  | Some email =>
      match exchangeAuthCodeByRefreshToken authCode with
      | Err e => Err (Errorf "failed to exchange auth code: " (Some e))
      | Ok resp =>
          match apple_verifyIDToken (IDToken resp) nonce email with
          | Err e => Err (Errorf "failed to verify id token: " (Some e))
          | Ok claims =>
              if bool_decide (userID <> ac_Subject claims)
              then Err (Errorf "userID mismatch" None)
              else Ok (ac_Subject claims)
          end
      end
  end end end end end.

Definition NewAppleProvider : AuthProvider := {| Authenticate := apple_Authenticate |}.
End Apple.

(* ------------------------------------------------------------------ *)
(** ** Error chains ([errors.Unwrap], [ListWrappedErrors] in the repository) *)

(** [errors.Unwrap]: the error wrapped by a [%w] verb, if any. *)
Definition errors_Unwrap (err : goerror) : option goerror :=
  match err with
  | Errorf _ (Some inner) => Some inner
  | _ => None
  end.

Fixpoint unwrapChain (err : goerror) : list goerror :=
  match err with
  | Errorf _ (Some inner) => err :: unwrapChain inner
  | _ => [err]
  end.

(** [ListWrappedErrors(err)]: [err], then [errors.Unwrap(err)], and so on
    until nil; [None] is the nil error. *)
Definition ListWrappedErrors (err : option goerror) : list goerror :=
  match err with
  | None => []
  | Some e => unwrapChain e
  end.

(* ------------------------------------------------------------------ *)
(** ** Public keys and their retrieval (fetchPublicKeyByID, createPublicKeyFromJWK) *)

(** [*rsa.PublicKey]: modulus and public exponent. *)
Record rsaPublicKey := { rsa_N : Z; rsa_E : Z }.

(** A cache of [*rsa.PublicKey] pointers: [None] is a stored nil pointer. *)
Abbreviation keyCache := (gmap string (@Certs.cacheEntry (option rsaPublicKey))).

(** [p.cacheManager.Get(id)] compared with nil: a hit is a stored, unexpired,
    non-nil key. *)
Definition cacheHit (cm : keyCache) (now : Certs.time) (id : string) : option rsaPublicKey :=
  match Certs.Get cm now id with
  | Some (Some key) => Some key
  | _ => None
  end.

(** The certs endpoint's answer as the Google code reads it: the [Expires]
    header and the JSON body decoded as [map[string]string]. *)
Record certsResponse := { ExpiresHeader : string; CertsBody : result (gmap string string) }.

Section GoogleKeys.
Variable CertsURL : string.
(** [http.Get(CertsURL)]. *)
Variable httpGet : string -> result certsResponse.
(** [time.Parse(time.RFC1123, header)]. *)
Variable parseRFC1123 : string -> result Certs.time.
(** [jwt.ParseRSAPublicKeyFromPEM]; its error is discarded by the caller, so
    only the (possibly nil) key matters. *)
Variable ParseRSAPublicKeyFromPEM : string -> option rsaPublicKey.

(** [googleProvider.fetchPublicKeyByID(id)] at wall-clock time [now]: the
    cache afterwards, whether the certs endpoint was called, and the key. *)
Definition google_fetchPublicKeyByID (cm : keyCache) (now : Certs.time) (id : string)
    : keyCache * bool * result rsaPublicKey :=
  match cacheHit cm now id with
  | Some key => (cm, false, Ok key)
  | None =>
      match httpGet CertsURL with
      | Err e => (cm, true, Err e)
      | Ok resp =>
          match parseRFC1123 (ExpiresHeader resp) with
          | Err e => (cm, true, Err (Errorf "failed to parse expires header: " (Some e)))
          | Ok expiresAt =>
              match CertsBody resp with
              | Err e => (cm, true, Err e)
              | Ok certs =>
                  let keys := ParseRSAPublicKeyFromPEM <$> certs in
                  let cm' := map_fold (fun i k acc => Certs.Add acc i k expiresAt) cm keys in
                  match cacheHit cm' now id with
                  | Some key => (cm', true, Ok key)
                  | None => (cm', true, Err (Errorf ("public key id '" +:+ id +:+ "' not found") None))
                  end
              end
          end
      end
  end.
End GoogleKeys.

(** [appleJWK]; the modulus and exponent fields are [jwk_N] and [jwk_E]. *)
Record appleJWK := { Kty : string; Kid : string; Use : string; Alg : string;
                     jwk_N : string; jwk_E : string }.

(** The padding step of [base64URLDecode]. *)
Definition base64URLPadding (data : string) : string :=
  match (String.length data mod 4)%nat with
  | 2%nat => data +:+ "=="
  | 3%nat => data +:+ "="
  | _ => data
  end.

(** [new(big.Int).SetBytes(b)]: big-endian unsigned value. *)
Definition SetBytes (b : list Byte.byte) : Z :=
  fold_left (fun acc x => acc * 256 + Z.of_N (Byte.to_N x)) b 0.

(** [Int64()] of [big.Int] of a non-negative value: its low 64 bits read as a
    two's-complement [int64]. *)
Definition Int64 (x : Z) : Z :=
  let v := x mod 2 ^ 64 in if bool_decide (2 ^ 63 <= v) then v - 2 ^ 64 else v.

Section AppleKeys.
(** [base64.URLEncoding.DecodeString]. *)
Variable DecodeString : string -> result (list Byte.byte).

Definition base64URLDecode (data : string) : result (list Byte.byte) :=
  DecodeString (base64URLPadding data).

Definition createPublicKeyFromJWK (jwk : appleJWK) : result rsaPublicKey :=
  if bool_decide (Kty jwk <> "RSA")
  then Err (Errorf ("expected RSA key type, got: " +:+ Kty jwk) None)
  else match base64URLDecode (jwk_N jwk) with
       | Err e => Err (Errorf "failed to decode modulus: " (Some e))
       | Ok nBytes =>
           match base64URLDecode (jwk_E jwk) with
           | Err e => Err (Errorf "failed to decode exponent: " (Some e))
           | Ok eBytes => Ok {| rsa_N := SetBytes nBytes; rsa_E := Int64 (SetBytes eBytes) |}
           end
       end.

(** The loop of [appleProvider.fetchPublicKeyByID] over the JWKS keys, each
    cached until [now] plus one hour; the first key that fails to convert
    ends the loop with an error, keeping the keys cached before it. *)
Fixpoint addJWKs (cm : keyCache) (now : Certs.time) (jwks : list appleJWK)
    : keyCache * option goerror :=
  match jwks with
  | [] => (cm, None)
  | jwk :: rest =>
      match createPublicKeyFromJWK jwk with
      | Err e => (cm, Some (Errorf ("failed to create public key from JWK key id " +:+ Kid jwk +:+ ": ")
                                  (Some e)))
      | Ok k => addJWKs (Certs.Add cm (Kid jwk) (Some k) (now + 3600 * 1000000000)) now rest
      end
  end.

Variable CertsURL : string.
(** [http.Get(CertsURL)] followed by [io.ReadAll] of the body: the outer
    error is the request's, the inner one the read's. *)
Variable httpGetBody : string -> result (result string).
(** [json.Unmarshal(body, &jwks)]. *)
Variable unmarshalJWKS : string -> result (list appleJWK).

(** [appleProvider.fetchPublicKeyByID(id)]; every clock read of the call
    returns [now]. *)
Definition apple_fetchPublicKeyByID (cm : keyCache) (now : Certs.time) (id : string)
    : keyCache * bool * result rsaPublicKey :=
  match cacheHit cm now id with
  | Some key => (cm, false, Ok key)
  | None =>
      match httpGetBody CertsURL with
      | Err e => (cm, true, Err (Errorf "failed to fetch public keys from certs url: " (Some e)))
      | Ok (Err e) => (cm, true, Err (Errorf "failed to read body from apple keys endpoint: " (Some e)))
      | Ok (Ok body) =>
          match unmarshalJWKS body with
          | Err e => (cm, true, Err (Errorf "failed to unmarshal JSON: " (Some e)))
          | Ok jwks =>
              match addJWKs cm now jwks with
              | (cm', Some e) => (cm', true, Err e)
              | (cm', None) =>
                  match cacheHit cm' now id with
                  | Some key => (cm', true, Ok key)
                  | None => (cm', true, Err (Errorf ("public key id '" +:+ id +:+ "' not found") None))
                  end
              end
          end
      end
  end.
End AppleKeys.

(* ------------------------------------------------------------------ *)
(** ** Provider registry (providers/factory.go) *)

(** [defaultFactory.registry : map[domain.ProviderType]ports.AuthProvider]. *)
Definition factory_Get (registry : gmap string AuthProvider) (providerType : string)
    : result AuthProvider :=
  match registry !! providerType with
  | Some provider => Ok provider
  | None => Err (Sentinel ErrProviderNotFound)
  end.

Definition factory_Add (registry : gmap string AuthProvider) (providerType : string)
    (provider : AuthProvider) : gmap string AuthProvider :=
  <[providerType := provider]> registry.

Definition factory_Remove (registry : gmap string AuthProvider) (providerType : string)
    : gmap string AuthProvider :=
  delete providerType registry.

(* ------------------------------------------------------------------ *)
(** ** DynamoDB accounts repository (adapters/output/dynamodb) *)

Module Repository.

Definition TablePKName : string := "PK".
Definition TableSKName : string := "SK".
Definition AccountIdentitySKName : string := "IDENTITY".

(** [fmt.Sprintf(AccountProviderPKPrefixFmt, accountID)] with "ACNT#%s". *)
Definition AccountProviderPK (accountID : string) : string := "ACNT#" +:+ accountID.
(** [fmt.Sprintf(AccountProviderSKPrefixFmt, providerType, providerID)] with "PVDR#%s#%s". *)
Definition AccountProviderSK (providerType providerID : string) : string :=
  "PVDR#" +:+ providerType +:+ "#" +:+ providerID.

(** [errTransactionErrorConditionFailed]: package-internal sentinel. *)
Definition errTransactionErrorConditionFailed : string :=
  "transaction error ConditionalCheckFailed".

Record DDBAccountProviderRecordData := {
  AccountID : string; ProviderType : string; ProviderID : string;
  DateCreatedISO8601 : string }.

Record DDBAccountProviderRecord := {
  RecordData : DDBAccountProviderRecordData; PK : string; SK : string }.

(** A DynamoDB attribute value: the string ([S]), number ([N], kept as its
    decimal text as on the wire), boolean ([BOOL]) and [NULL] members. *)
Inductive AttributeValue := AVS (s : string) | AVN (n : string) | AVBOOL (b : bool) | AVNULL.

(** A DynamoDB item: [map[string]types.AttributeValue]. *)
Abbreviation Item := (gmap string AttributeValue).

(** [attributevalue.MarshalMap] of a record: the embedded data struct is
    flattened, each field under its [dynamodbav] tag. *)
Definition MarshalMap (r : DDBAccountProviderRecord) : Item :=
  <["AccountID" := AVS (AccountID (RecordData r))]>
  (<["ProviderType" := AVS (ProviderType (RecordData r))]>
  (<["ProviderID" := AVS (ProviderID (RecordData r))]>
  (<["DateCreated" := AVS (DateCreatedISO8601 (RecordData r))]>
  (<["PK" := AVS (PK r)]>
  (<["SK" := AVS (SK r)]> ∅))))).

(** [attributevalue.UnmarshalMap] into a string field: an absent or NULL
    attribute leaves the zero value, a string is copied, a number is stored
    as its decimal text (the decoder sets a string-kinded field from the
    number's text, as for its [Number] type), and a boolean is an
    [UnmarshalTypeError]. *)
Definition unmarshalString (it : Item) (name : string) : result string :=
  match it !! name with
  | None | Some AVNULL => Ok ""
  | Some (AVS s) => Ok s
  | Some (AVN n) => Ok n
  | Some (AVBOOL _) =>
      Err (Errorf "unmarshal failed, cannot unmarshal bool to Go value type string" None)
  end.

Definition UnmarshalMap (it : Item) : result DDBAccountProviderRecordData :=
  match unmarshalString it "AccountID", unmarshalString it "ProviderType",
        unmarshalString it "ProviderID", unmarshalString it "DateCreated" with
  | Ok a, Ok t, Ok i, Ok d =>
      Ok {| AccountID := a; ProviderType := t; ProviderID := i; DateCreatedISO8601 := d |}
  | Err e, _, _, _ | _, Err e, _, _ | _, _, Err e, _ | _, _, _, Err e => Err e
  end.

(** A condition expression of the [expression] package. *)
Inductive ConditionExpr :=
  | AttributeNotExists (name : string)
  | CondAnd (a b : ConditionExpr).

(** [expression.And(AttributeNotExists(Name(PK)), AttributeNotExists(Name(SK)))],
    the condition of both puts. *)
Definition notExistsCond : ConditionExpr :=
  CondAnd (AttributeNotExists TablePKName) (AttributeNotExists TableSKName).

(** A [types.Put] of a [TransactWriteItem]. *)
Record Put := { PutTableName : string; PutItem : Item; PutCondition : ConditionExpr }.

(** A key-condition query [PK = pk AND SK = sk] on a table. *)
Record QueryInput := { QTableName : string; QPK : string; QSK : string }.

(** [DynamoDBAPI]: the two SDK operations the repository uses, over a
    client state [W]. *)
Record DynamoDBAPI (W : Type) := {
  Query : W -> QueryInput -> W * result (list Item);
  TransactWriteItems : W -> list Put -> W * option goerror }.
Arguments Query {W} _ _ _.
Arguments TransactWriteItems {W} _ _ _.

(** [errors.As(err, &*types.TransactionCanceledException)]. *)
Fixpoint asTransactionCanceled (err : goerror) : option (list (option string * option string)) :=
  match err with
  | TransactionCanceled rs => Some rs
  | Errorf _ (Some inner) => asTransactionCanceled inner
  | _ => None
  end.

(** The loop of [enrichErrorWithOperationContext] from index [i]. *)
Fixpoint enrichReasons (operations : list string) (i : nat)
    (reasons : list (option string * option string)) : option goerror :=
  match reasons with
  | [] => None
  | (Some code, msg) :: rest =>
      if bool_decide (code <> "None") then
        let operationName := default "Unknown" (operations !! i) in
        let reasonStr := match msg with Some m => code +:+ ": " +:+ m | None => code end in
        let inner := if bool_decide (code = "ConditionalCheckFailed")
                     then Sentinel errTransactionErrorConditionFailed
                     else Errorf ("transaction error " +:+ code) None in
        Some (Errorf ("operation: " +:+ operationName +:+ ", index: " +:+ pretty i
                      +:+ ", reason: " +:+ reasonStr +:+ ": ") (Some inner))
      else enrichReasons operations (S i) rest
  | (None, _) :: rest => enrichReasons operations (S i) rest
  end.

Definition enrichErrorWithOperationContext (err : goerror) (operations : list string) : goerror :=
  match asTransactionCanceled err with
  | Some reasons => default err (enrichReasons operations 0 reasons)
  | None => err
  end.

Section Repo.
Context {W : Type}.
Variable client : DynamoDBAPI W.
Variable tableName : string.

(** [ResolveIDByProvider]: returns the client state and Go's
    [(domain.AccountID, error)] pair. The key-condition builder cannot fail
    for these constant expressions, so its error branch is not modelled. *)
Definition ResolveIDByProvider (w : W) (providerType providerID : string)
    : W * (string * option goerror) :=
  let pk := AccountProviderSK providerType providerID in
  let sk := AccountIdentitySKName in
  let '(w', res) := Query client w {| QTableName := tableName; QPK := pk; QSK := sk |} in
  (w',
   match res with
   | Err e => (EmptyAccountID, Some (Errorf "failed to query DynamoDB: " (Some e)))
   | Ok [] => (EmptyAccountID, Some (Sentinel ErrAccountNotFound))
   | Ok (_ :: _ :: _) =>
       (EmptyAccountID,
        Some (Errorf ("unexpected multiple accounts found for provider type " +:+ providerType
                      +:+ " and provider ID " +:+ providerID) None))
   | Ok [item] =>
       match UnmarshalMap item with
       | Err e => (EmptyAccountID, Some (Errorf "failed to unmarshal DynamoDB items: " (Some e)))
       | Ok record => (AccountID record, None)
       end
   end).

(** The two puts of [Create] for the generated [accountID], the creation
    time [now] (RFC 3339, UTC) and the provider identity. *)
Definition CreateTransactItems (accountID now providerType providerID : string) : list Put :=
  let data := {| AccountID := accountID; ProviderType := providerType;
                 ProviderID := providerID; DateCreatedISO8601 := now |} in
  let identityRecord := {| RecordData := data;
                           PK := AccountProviderSK providerType providerID;
                           SK := AccountIdentitySKName |} in
  let accountRecord := {| RecordData := data;
                          PK := AccountProviderPK accountID;
                          SK := AccountProviderSK providerType providerID |} in
  [ {| PutTableName := tableName; PutItem := MarshalMap identityRecord;
       PutCondition := notExistsCond |};
    {| PutTableName := tableName; PutItem := MarshalMap accountRecord;
       PutCondition := notExistsCond |} ].

(** [Create]: [accountID] is the value of [r.idGenerator.GenerateID()] and
    [now] the formatted [time.Now().UTC()]. *)
Definition Create (w : W) (accountID now providerType providerID : string)
    : W * (string * option goerror) :=
  let '(w', err) := TransactWriteItems client w
                      (CreateTransactItems accountID now providerType providerID) in
  match err with
  | None => (w', (accountID, None))
  | Some e =>
      let tErr := enrichErrorWithOperationContext e
                    ["PUT Provider Identity data"; "PUT Account data"] in
      let tErr := if errors_Is tErr errTransactionErrorConditionFailed
                  then Sentinel ErrProviderIDOrAccountAlreadyExists else tErr in
      (w', (EmptyAccountID,
            Some (Errorf "failed to execute transaction when creating account: " (Some tErr))))
  end.
End Repo.

(** The store the repository runs against: a single DynamoDB table keyed by
    [(PK, SK)], with the documented semantics of [Query] on a full primary
    key and of [TransactWriteItems] (all conditions are checked first; if one
    fails nothing is written and the call fails with a
    [TransactionCanceledException] carrying one reason per item, [None] for
    the items whose condition held). Every call is recorded in [calls]. *)
Inductive ddbCall := CallQuery (q : QueryInput) | CallTransact (puts : list Put).

Record ddbWorld := { table : gmap (string * string) Item; calls : list ddbCall }.

Definition attrS (it : Item) (name : string) : string :=
  match it !! name with Some (AVS s) => s | _ => "" end.

Definition itemKey (it : Item) : string * string := (attrS it TablePKName, attrS it TableSKName).

(** A condition evaluated against the item currently stored under the key of
    the item being put. *)
Fixpoint evalCond (c : ConditionExpr) (existing : option Item) : bool :=
  match c with
  | AttributeNotExists name =>
      match existing with
      | None => true
      | Some it => bool_decide (it !! name = None)
      end
  | CondAnd a b => evalCond a existing && evalCond b existing
  end.

Definition ddbQuery (w : ddbWorld) (q : QueryInput) : ddbWorld * result (list Item) :=
  ({| table := table w; calls := calls w ++ [CallQuery q] |},
   Ok (match table w !! (QPK q, QSK q) with Some it => [it] | None => [] end)).

Definition putReason (t : gmap (string * string) Item) (p : Put) : option string * option string :=
  if evalCond (PutCondition p) (t !! itemKey (PutItem p))
  then (Some "None", None)
  else (Some "ConditionalCheckFailed", Some "The conditional request failed").

Definition applyPuts (t : gmap (string * string) Item) (puts : list Put) : gmap (string * string) Item :=
  foldl (fun acc p => <[itemKey (PutItem p) := PutItem p]> acc) t puts.

Definition ddbTransactWriteItems (w : ddbWorld) (puts : list Put) : ddbWorld * option goerror :=
  let calls' := calls w ++ [CallTransact puts] in
  if forallb (fun p => evalCond (PutCondition p) (table w !! itemKey (PutItem p))) puts
  then ({| table := applyPuts (table w) puts; calls := calls' |}, None)
  else ({| table := table w; calls := calls' |},
        Some (Errorf "operation error DynamoDB: TransactWriteItems, https response error: "
                (Some (TransactionCanceled (map (putReason (table w)) puts))))).

Definition dynamoDBClient : DynamoDBAPI ddbWorld :=
  {| Query := ddbQuery; TransactWriteItems := ddbTransactWriteItems |}.

End Repository.

(* ------------------------------------------------------------------ *)
(** ** Authentication orchestrator (core/services/auth_service.go) *)

Module Services.

(** [domain.AuthenticateInput]. *)
Record AuthenticateInput := { ProviderType : string; AuthData : gmap string string }.

(** [domain.AuthenticateOutput]. *)
Record AuthenticateOutput := { AccountID : string; IsNew : bool }.

(** [ports.AccountsRepository] over a repository state [St]; each operation
    returns Go's [(domain.AccountID, error)] pair. *)
Record AccountsRepository (St : Type) := {
  ResolveIDByProvider : St -> string -> string -> St * (string * option goerror);
  Create : St -> string -> string -> St * (string * option goerror) }.
Arguments ResolveIDByProvider {St} _ _ _ _.
Arguments Create {St} _ _ _ _.

(** The calls [Authenticate] makes into its collaborators, in order. *)
Inductive authEvent :=
  | EvProviderAuthenticate (providerType : string)
  | EvResolve (providerType providerID : string)
  | EvCreate (providerType providerID : string).

Section AuthService.
Context {St : Type}.
Variable providerFactory : gmap string AuthProvider.
Variable repository : AccountsRepository St.

(** [authService.Authenticate] without its tracing and metrics: the final
    repository state, the collaborator calls made, and [Ok out] for
    [(&out, nil)] or [Err e] for [(nil, e)]. *)
Definition Authenticate (s : St) (input : AuthenticateInput)
    : St * list authEvent * result AuthenticateOutput :=
  let pt := ProviderType input in
  match factory_Get providerFactory pt with
  | Err err => (s, [], Err err)
  | Ok provider =>
      match Authenticate provider (AuthData input) with
      | Err err => (s, [EvProviderAuthenticate pt], Err err)
      | Ok id =>
          let '(s1, (accountID, rerr)) := ResolveIDByProvider repository s pt id in
          let ev1 := [EvProviderAuthenticate pt; EvResolve pt id] in
          match rerr with
          | None => (s1, ev1, Ok {| AccountID := accountID; IsNew := false |})
          | Some err =>
              if errors_Is err ErrAccountNotFound then
                let '(s2, (accountID', cerr)) := Create repository s1 pt id in
                let ev2 := ev1 ++ [EvCreate pt id] in
                match cerr with
                | Some err' => (s2, ev2, Err (Errorf "failed to create account: " (Some err')))
                | None => (s2, ev2, Ok {| AccountID := accountID'; IsNew := true |})
                end
              else (s1, ev1, Err (Errorf "failed to resolve account ID: " (Some err)))
          end
      end
  end.
End AuthService.

(** The DynamoDB repository as wired by the server: the table state, and
    the number of ids the KSUID generator has produced so far ([GenerateID n]
    is its [n]-th id); [now] is the creation timestamp. *)
Section Dynamo.
Variable tableName : string.
Variable GenerateID : nat -> string.
Variable now : string.

Definition dynamoRepository : AccountsRepository (Repository.ddbWorld * nat) :=
  {| ResolveIDByProvider := fun '(w, n) pt id =>
       let '(w', r) := Repository.ResolveIDByProvider Repository.dynamoDBClient tableName w pt id in
       ((w', n), r);
     Create := fun '(w, n) pt id =>
       let '(w', r) := Repository.Create Repository.dynamoDBClient tableName w
                         (GenerateID n) now pt id in
       ((w', S n), r) |}.
End Dynamo.

(** A repository whose [Create] runs after a step [other] of a concurrent
    caller that interleaves between resolution and creation. *)
Definition withConcurrentStep {St : Type} (repo : AccountsRepository St) (other : St -> St)
    : AccountsRepository St :=
  {| ResolveIDByProvider := ResolveIDByProvider repo;
     Create := fun s pt id => Create repo (other s) pt id |}.

End Services.

(* ------------------------------------------------------------------ *)
(** ** Concrete deployment used to evaluate the code on inputs *)

Module Scenario.

Definition tableName : string := "accounts".
Definition GenerateID (n : nat) : string := "acct-" +:+ pretty n.
Definition now : string := "2025-06-01T12:00:00Z".
Definition emptyWorld : Repository.ddbWorld := {| Repository.table := ∅; Repository.calls := [] |}.

Definition googleCreds : GoogleCredentials :=
  {| g_ClientID := "client-1"; g_ClientSecret := "secret"; g_AuthURI := "https://oauth2.googleapis.com/token";
     g_CertsURL := "https://www.googleapis.com/oauth2/v1/certs";
     g_IDTokenExpectedIssuer := "https://accounts.google.com"; g_IDTokenExpectedAud := "client-1" |}.

(** Token endpoint: the code "valid-code" is exchanged for "id-token-1". *)
Definition googleExchange (code : string) : result tokenResponse :=
  if bool_decide (code = "valid-code")
  then Ok {| AccessToken := "at"; TokenType := "Bearer"; IDToken := "id-token-1" |}
  else Err (Errorf "token exchange failed: invalid_grant" None).

(** JWT library: "id-token-1" is correctly signed, unexpired, and carries
    the nonce "server-nonce-B". *)
Definition googleParse (tok : string) : result idTokenPayload :=
  if bool_decide (tok = "id-token-1")
  then Ok {| p_iss := "https://accounts.google.com"; p_sub := "google-sub-42";
             p_aud := "client-1"; p_email := "player@example.com"; p_nonce := "server-nonce-B" |}
  else Err (NewError "token is malformed").

Definition googleData : gmap string string :=
  <["token" := "valid-code"]> (<["nonce" := "client-nonce-A"]> ∅).

Definition registry : gmap string AuthProvider :=
  <[ProviderTypeGoogle := NewGoogleProvider googleCreds googleExchange googleParse]>
  (<[ProviderTypeGuest := NewGuestProvider]> ∅).

Definition repo := Services.dynamoRepository tableName GenerateID now.

Definition appleCreds : AppleCredentials :=
  {| a_ClientID := "app-1"; a_ClientSecret := "secret"; a_CertsURL := "https://appleid.apple.com/auth/keys";
     a_AuthTokensURL := "https://appleid.apple.com/auth/token";
     a_IDTokenExpectedAudience := "app-1"; a_IDTokenExpectedIssuer := "https://appleid.apple.com" |}.

Definition appleExchange (code : string) : result tokenResponse :=
  Ok {| AccessToken := "at"; TokenType := "Bearer"; IDToken := "apple-token-" +:+ code |}.

Definition appleParse (tok : string) : result idTokenPayload :=
  Ok {| p_iss := "https://appleid.apple.com"; p_sub := "apple-sub-7"; p_aud := "app-1";
        p_email := "someone@privaterelay.appleid.com"; p_nonce := "n-1" |}.

Definition appleData (email : string) : gmap string string :=
  <["identityToken" := "raw"]> (<["authorizationCode" := "c1"]> (<["userID" := "apple-sub-7"]>
  (<["nonce" := "n-1"]> (<["email" := email]> ∅)))).

Definition googleInput : Services.AuthenticateInput :=
  {| Services.ProviderType := ProviderTypeGoogle; Services.AuthData := googleData |}.

Definition googleProvider : AuthProvider :=
  NewGoogleProvider googleCreds googleExchange googleParse.

(** A DynamoDB client whose transactions are always cancelled by a
    conflicting transaction on the second item. *)
Definition conflictClient : Repository.DynamoDBAPI unit :=
  {| Repository.Query := fun w _ => (w, Ok []);
     Repository.TransactWriteItems := fun w _ =>
       (w, Some (Errorf "operation error DynamoDB: TransactWriteItems, https response error: "
                  (Some (TransactionCanceled
                           [(Some "None", None);
                            (Some "TransactionConflict", Some "Transaction is ongoing for the item")])))) |}.

End Scenario.

(** Concrete endpoints for the public-key retrieval code. *)
Module KeyScenario.

(** 2025-06-01 12:00:00 UTC and 13:00:00 UTC, in nanoseconds. *)
Definition now : Certs.time := 1748779200 * 1000000000.
Definition inOneHour : Certs.time := 1748782800 * 1000000000.

Definition googleCertsURL : string := "https://www.googleapis.com/oauth2/v1/certs".
Definition googleKey : rsaPublicKey := {| rsa_N := 3233; rsa_E := 17 |}.

(** The certs endpoint: "kid-1" carries a valid PEM, "kid-2" a broken one. *)
Definition googleHttpGet (url : string) : result certsResponse :=
  Ok {| ExpiresHeader := "Sun, 01 Jun 2025 13:00:00 GMT";
        CertsBody := Ok (<["kid-1" := "PEM-1"]> (<["kid-2" := "not a pem"]> ∅)) |}.

Definition parseRFC1123 (h : string) : result Certs.time :=
  if bool_decide (h = "Sun, 01 Jun 2025 13:00:00 GMT") then Ok inOneHour
  else Err (NewError "parsing time")%string.

Definition ParseRSAPublicKeyFromPEM (pem : string) : option rsaPublicKey :=
  if bool_decide (pem = "PEM-1") then Some googleKey else None.

Definition emptyCache : keyCache := ∅.

(** [base64.URLEncoding.DecodeString] on the strings of the JWKS below. *)
Definition DecodeString (s : string) : result (list Byte.byte) :=
  if bool_decide (s = "AQAB") then Ok [Byte.x01; Byte.x00; Byte.x01]
  else if bool_decide (s = "sXch") then Ok [Byte.xb1; Byte.x77; Byte.x21]
  else Err (NewError "illegal base64 data").

Definition appleCertsURL : string := "https://appleid.apple.com/auth/keys".

Definition rsaJWK (kid : string) : appleJWK :=
  {| Kty := "RSA"; Kid := kid; Use := "sig"; Alg := "RS256"; jwk_N := "sXch"; jwk_E := "AQAB" |}.
Definition ecJWK : appleJWK :=
  {| Kty := "EC"; Kid := "kid-ec"; Use := "sig"; Alg := "ES256"; jwk_N := ""; jwk_E := "" |}.

Definition appleHttpGetBody (url : string) : result (result string) := Ok (Ok "jwks").

(** A JWKS of two RSA keys, and one that also lists an EC key. *)
Definition unmarshalRSAOnly (body : string) : result (list appleJWK) :=
  Ok [rsaJWK "kid-a"; rsaJWK "kid-b"].
Definition unmarshalWithEC (body : string) : result (list appleJWK) :=
  Ok [rsaJWK "kid-a"; ecJWK; rsaJWK "kid-b"].

End KeyScenario.

(* ================================================================== *)
(** * Theorems *)

Module CacheProofs.
Import Certs.

Lemma lookup_Reset {K : Type} (cm : gmap string (@cacheEntry K)) (i : string) :
  Reset cm !! i = None.
Proof.
  unfold Reset.
  cut (forall acc, map_fold (fun k _ (a : gmap string (@cacheEntry K)) => delete k a) acc cm !! i
                   = match cm !! i with Some _ => None | None => acc !! i end).
  { intros H. rewrite H. by destruct (cm !! i). }
  intros acc.
  apply (map_fold_weak_ind
           (fun r m => r !! i = match m !! i with Some _ => None | None => acc !! i end)).
  - by rewrite lookup_empty.
  - intros j x m r Hj IH. destruct (decide (i = j)) as [->|Hne].
    + by rewrite lookup_delete_eq, lookup_insert_eq.
    + by rewrite lookup_delete_ne, lookup_insert_ne by congruence.
Qed.

(** A key no call adds stays absent. *)
Lemma lookup_runCalls_absent {K : Type} (cm : gmap string (@cacheEntry K)) calls k :
  cm !! k = None -> forallb (fun c => negb (addsID k c)) calls = true ->
  runCalls cm calls !! k = None.
Proof.
  unfold runCalls. revert cm. induction calls as [|c calls IH]; intros cm Hk Hc; [done|].
  cbn [forallb] in Hc. apply andb_prop in Hc as [Hc1 Hc2]. cbn [foldl].
  apply IH; [|done]. destruct c as [i pub t|]; cbn [runCall].
  - cbn [addsID] in Hc1. unfold Add.
    rewrite lookup_insert_ne; [done|]. intros ->. by rewrite bool_decide_eq_true_2 in Hc1.
  - apply lookup_Reset.
Qed.

Lemma Get_Add_same {K : Type} (cm : gmap string (@cacheEntry K)) k key t now :
  Get (Add cm k key t) now k = if bool_decide (Unix now < Unix t) then Some key else None.
Proof. unfold Get, Add. by rewrite lookup_insert_eq. Qed.

Lemma Unix_mono (a b : time) : a <= b -> Unix a <= Unix b.
Proof. unfold Unix. intros. apply Z.div_le_mono; lia. Qed.

Lemma Unix_lt_of_second_before (now t : time) :
  now + 1000000000 <= t -> Unix now < Unix t.
Proof.
  unfold Unix. intros H.
  assert ((now + 1000000000) / 1000000000 = now / 1000000000 + 1) as E.
  { rewrite <- (Z.mul_1_l 1000000000) at 1. rewrite Z.div_add by lia. lia. }
  pose proof (Z.div_le_mono _ _ 1000000000 ltac:(lia) H). lia.
Qed.



(** C7 (as stated, refuted): the claim promises the key at every instant
    strictly before its expiry [t]. With [t] = 1.5 s and a lookup at
    1.2 s after the epoch, [now < t] but both instants lie in the same Unix
    second, so [Get] returns nil. *)
Lemma C7_subsecond_counterexample :
  1200000000 < 1500000000 /\
  Get (Add (∅ : gmap string (@cacheEntry nat)) "kid" 7%nat 1500000000)
      1200000000 "kid" = None.
Proof. split; [lia | vm_compute; reflexivity]. Qed.

(** C7 (amended): after [Add(k, key, t)], [Get(k)] returns [key] at every
    instant whose Unix second is strictly before the Unix second of [t] (in
    particular at every instant at least one second before [t]) and returns
    nil at every instant at or after [t]; [Get] of a key never added returns
    nil: on a fresh manager, on any cache not holding it, and on the cache
    reached from either by any sequence of [Add]s (of other keys) and
    [Reset]s; after [Reset()] every [Get] returns nil, and keeps returning
    nil for [k'] until an [Add] for [k']. *)
Theorem cache_get_add_reset {K : Type} (cm : gmap string (@cacheEntry K))
    (k : string) (key : K) (t : time) :
  (forall now, Unix now < Unix t -> Get (Add cm k key t) now k = Some key) /\
  (forall now, now + 1000000000 <= t -> Get (Add cm k key t) now k = Some key) /\
  (forall now, t <= now -> Get (Add cm k key t) now k = None) /\
  (forall now k', (NewSimpleCacheManager : gmap string (@cacheEntry K)) = ∅ /\
                  Get (NewSimpleCacheManager : gmap string (@cacheEntry K)) now k' = None) /\
  (forall (cm0 : gmap string (@cacheEntry K)) calls now k',
     cm0 !! k' = None -> forallb (fun c => negb (addsID k' c)) calls = true ->
     Get (runCalls cm0 calls) now k' = None) /\
  (forall calls now k', forallb (fun c => negb (addsID k' c)) calls = true ->
     Get (runCalls (NewSimpleCacheManager : gmap string (@cacheEntry K)) calls) now k' = None) /\
  (forall now k', Get (Reset cm) now k' = None) /\
  (forall calls now k', forallb (fun c => negb (addsID k' c)) calls = true ->
     Get (runCalls (Reset cm) calls) now k' = None).
Proof.
  split; [|split; [|split; [|split; [|split; [|split; [|split]]]]]].
  - intros now H. rewrite Get_Add_same. by rewrite bool_decide_eq_true_2.
  - intros now H. rewrite Get_Add_same.
    by rewrite bool_decide_eq_true_2 by (apply Unix_lt_of_second_before; lia).
  - intros now H. rewrite Get_Add_same. pose proof (Unix_mono t now H).
    by rewrite bool_decide_eq_false_2 by lia.
  - intros now k'. split; [done|]. unfold Get, NewSimpleCacheManager. by rewrite lookup_empty.
  - intros cm0 calls now k' H0 Hc. unfold Get. by rewrite lookup_runCalls_absent.
  - intros calls now k' Hc. unfold Get. by rewrite lookup_runCalls_absent.
  - intros now k'. unfold Get. by rewrite lookup_Reset.
  - intros calls now k' Hc. unfold Get. rewrite lookup_runCalls_absent; [done|apply lookup_Reset|done].
Qed.

(** C9: expiry is compared at whole-second granularity with a strict [<]:
    an entry whose stored expiry second is at most the current Unix second
    is not returned; [Get] at the exact expiry instant returns nil; and an
    [Add] whose expiry lies later within the current second already yields
    nil. *)
Theorem cache_expiry_whole_second {K : Type} :
  (forall (cm : gmap string (@cacheEntry K)) k e now,
     cm !! k = Some e -> expiresAt e <= Unix now -> Get cm now k = None) /\
  (forall (cm : gmap string (@cacheEntry K)) k key t,
     Get (Add cm k key t) t k = None) /\
  (forall (cm : gmap string (@cacheEntry K)) k key t now,
     Unix now = Unix t -> Get (Add cm k key t) now k = None) /\
  (forall (cm : gmap string (@cacheEntry K)) k key,
     exists now t, now < t /\ Get (Add cm k key t) now k = None).
Proof.
  split; [|split; [|split]].
  - intros cm k e now Hk Hle. unfold Get. rewrite Hk.
    by rewrite bool_decide_eq_false_2 by lia.
  - intros cm k key t. rewrite Get_Add_same. by rewrite bool_decide_eq_false_2 by lia.
  - intros cm k key t now H. rewrite Get_Add_same. by rewrite bool_decide_eq_false_2 by lia.
  - intros cm k key. exists 1200000000, 1500000000. split; [lia|].
    rewrite Get_Add_same. reflexivity.
Qed.
End CacheProofs.

Module RepositoryProofs.
Import Repository.

Lemma MarshalMap_PK r : MarshalMap r !! TablePKName = Some (AVS (PK r)).
Proof. unfold MarshalMap, TablePKName. by simplify_map_eq. Qed.

Lemma MarshalMap_SK r : MarshalMap r !! TableSKName = Some (AVS (SK r)).
Proof. unfold MarshalMap, TableSKName. by simplify_map_eq. Qed.

Lemma itemKey_MarshalMap r : itemKey (MarshalMap r) = (PK r, SK r).
Proof. unfold itemKey, attrS. by rewrite MarshalMap_PK, MarshalMap_SK. Qed.

Lemma UnmarshalMap_MarshalMap r : UnmarshalMap (MarshalMap r) = Ok (RecordData r).
Proof.
  unfold UnmarshalMap, unmarshalString, MarshalMap. simplify_map_eq.
  by destruct r as [[]].
Qed.

Lemma unmarshalString_no_bool it name :
  (forall b, it !! name <> Some (AVBOOL b)) ->
  unmarshalString it name = Ok (match it !! name with Some (AVS a) | Some (AVN a) => a | _ => "" end).
Proof. intros H. unfold unmarshalString. destruct (it !! name) as [[]|]; try done. by destruct (H b). Qed.

(** An item none of whose four record fields holds a boolean decodes. *)
Lemma UnmarshalMap_no_bool it :
  (forall name b, name ∈ ["AccountID"; "ProviderType"; "ProviderID"; "DateCreated"] ->
     it !! name <> Some (AVBOOL b)) ->
  exists rec, UnmarshalMap it = Ok rec /\
    AccountID rec = match it !! "AccountID" with Some (AVS a) | Some (AVN a) => a | _ => "" end.
Proof.
  intros H. unfold UnmarshalMap.
  rewrite !unmarshalString_no_bool by (intros b; apply H; set_solver).
  eexists; split; reflexivity.
Qed.

Lemma AccountProviderSK_ne_PK a b c : AccountProviderSK a b <> AccountProviderPK c.
Proof. unfold AccountProviderSK, AccountProviderPK. simpl. intros H. injection H. discriminate. Qed.

Lemma evalCond_notExists_None : evalCond notExistsCond None = true.
Proof. reflexivity. Qed.

Lemma evalCond_notExists_Some it :
  is_Some (it !! TablePKName) -> evalCond notExistsCond (Some it) = false.
Proof.
  intros [v Hv]. simpl. rewrite Hv. by rewrite bool_decide_eq_false_2.
Qed.

(** The reasons DynamoDB reports for the puts of a cancelled transaction. *)
Definition storeReason (r : option string * option string) : Prop :=
  r = (Some "None", None) \/ r = (Some "ConditionalCheckFailed", Some "The conditional request failed").

Lemma enrichReasons_conditionFailed ops i reasons :
  Forall storeReason reasons ->
  (exists r, r ∈ reasons /\ r <> (Some "None", None)) ->
  exists e, enrichReasons ops i reasons = Some e /\
            errors_Is e errTransactionErrorConditionFailed = true.
Proof.
  revert i. induction reasons as [|r rest IH]; intros i Hall Hex.
  - destruct Hex as (? & Hin & _). by apply elem_of_nil in Hin.
  - inversion Hall as [|? ? Hr Hrest]; subst.
    destruct Hr as [-> | ->].
    + cbn [enrichReasons]. rewrite bool_decide_eq_false_2 by (intros Hn; apply Hn; reflexivity).
      apply IH; [done|]. destruct Hex as (r & Hin & Hne).
      apply elem_of_cons in Hin as [->|Hin]; [done|eauto].
    + cbn [enrichReasons]. rewrite bool_decide_eq_true_2 by discriminate.
      rewrite (bool_decide_eq_true_2 ("ConditionalCheckFailed" = "ConditionalCheckFailed")) by done.
      eexists; split; [reflexivity|]. vm_compute. reflexivity.
Qed.

Lemma putReason_store t p : storeReason (putReason t p).
Proof. unfold putReason, storeReason. destruct (evalCond _ _); auto. Qed.

Lemma rejected_reason t puts :
  forallb (fun p => evalCond (PutCondition p) (t !! itemKey (PutItem p))) puts = false ->
  exists r, r ∈ map (putReason t) puts /\ r <> (Some "None", None).
Proof.
  induction puts as [|p rest IH]; simpl; [discriminate|].
  destruct (evalCond (PutCondition p) (t !! itemKey (PutItem p))) eqn:Hp; simpl.
  - intros Hf. destruct (IH Hf) as (r & Hin & Hne). exists r. split; [by right|done].
  - intros _. exists (putReason t p). split; [by left|].
    unfold putReason. rewrite Hp. discriminate.
Qed.

(** A transaction the store rejects surfaces from [Create] as an error
    matching [ErrProviderIDOrAccountAlreadyExists], with the empty id and
    the table untouched. *)
Lemma Create_rejected tbl w accountID now pt pid :
  forallb (fun p => evalCond (PutCondition p) (table w !! itemKey (PutItem p)))
          (CreateTransactItems tbl accountID now pt pid) = false ->
  exists e,
    Create dynamoDBClient tbl w accountID now pt pid =
      ({| table := table w; calls := calls w ++ [CallTransact (CreateTransactItems tbl accountID now pt pid)] |},
       (EmptyAccountID, Some e)) /\
    errors_Is e ErrProviderIDOrAccountAlreadyExists = true.
Proof.
  intros Hf. unfold Create. simpl. unfold ddbTransactWriteItems. rewrite Hf.
  set (puts := CreateTransactItems tbl accountID now pt pid) in *.
  destruct (enrichReasons_conditionFailed ["PUT Provider Identity data"; "PUT Account data"] 0
              (map (putReason (table w)) puts)) as (e & He & HIs).
  - apply List.Forall_map, Forall_forall. intros p _. apply putReason_store.
  - by apply rejected_reason.
  - unfold enrichErrorWithOperationContext. cbn [asTransactionCanceled]. rewrite He.
    cbn [default]. unfold id. rewrite HIs.
    eexists; split; [reflexivity|]. vm_compute. reflexivity.
Qed.

Lemma Create_accepted tbl w accountID now pt pid :
  forallb (fun p => evalCond (PutCondition p) (table w !! itemKey (PutItem p)))
          (CreateTransactItems tbl accountID now pt pid) = true ->
  Create dynamoDBClient tbl w accountID now pt pid =
    ({| table := applyPuts (table w) (CreateTransactItems tbl accountID now pt pid);
        calls := calls w ++ [CallTransact (CreateTransactItems tbl accountID now pt pid)] |},
     (accountID, None)).
Proof. intros Ht. unfold Create. simpl. unfold ddbTransactWriteItems. by rewrite Ht. Qed.

Lemma CreateTransactItems_keys tbl accountID now pt pid :
  map (fun p => itemKey (PutItem p)) (CreateTransactItems tbl accountID now pt pid) =
    [(AccountProviderSK pt pid, AccountIdentitySKName);
     (AccountProviderPK accountID, AccountProviderSK pt pid)].
Proof. simpl. by rewrite !itemKey_MarshalMap. Qed.

(** C1: [Create] issues exactly one [TransactWriteItems] call holding two
    puts, the identity record under [(PVDR#type#id, IDENTITY)] and the
    account record under [(ACNT#accountID, PVDR#type#id)], each conditioned
    on [attribute_not_exists(PK) AND attribute_not_exists(SK)] (true when no
    item is stored under the put's key, false when one is). When the store
    rejects the transaction (a condition failed), [Create] returns the empty
    account id and an error matching [ErrProviderIDOrAccountAlreadyExists],
    and nothing is written; otherwise it returns the generated id and both
    records are written. *)
Theorem Create_atomic_conditional_write tbl w accountID now pt pid :
  let puts := CreateTransactItems tbl accountID now pt pid in
  let r := Create dynamoDBClient tbl w accountID now pt pid in
  calls r.1 = calls w ++ [CallTransact puts] /\
  map (fun p => itemKey (PutItem p)) puts =
    [(AccountProviderSK pt pid, AccountIdentitySKName);
     (AccountProviderPK accountID, AccountProviderSK pt pid)] /\
  Forall (fun p => PutCondition p = notExistsCond) puts /\
  evalCond notExistsCond None = true /\
  (forall it, is_Some (it !! TablePKName) -> evalCond notExistsCond (Some it) = false) /\
  (forallb (fun p => evalCond (PutCondition p) (table w !! itemKey (PutItem p))) puts = false ->
   exists e, r.2 = (EmptyAccountID, Some e) /\ table r.1 = table w /\
             errors_Is e ErrProviderIDOrAccountAlreadyExists = true) /\
  (forallb (fun p => evalCond (PutCondition p) (table w !! itemKey (PutItem p))) puts = true ->
   r.2 = (accountID, None) /\ table r.1 = applyPuts (table w) puts).
Proof.
  intros puts r.
  split; [|split; [apply CreateTransactItems_keys|split; [|split; [done|split; [apply evalCond_notExists_Some|split]]]]].
  - subst r puts.
    destruct (forallb (fun p => evalCond (PutCondition p) (table w !! itemKey (PutItem p)))
                      (CreateTransactItems tbl accountID now pt pid)) eqn:Hf.
    + by rewrite Create_accepted.
    + destruct (Create_rejected tbl w accountID now pt pid Hf) as (e & -> & _). done.
  - repeat constructor.
  - intros Hf. destruct (Create_rejected tbl w accountID now pt pid Hf) as (e & Heq & HIs).
    exists e. subst r. by rewrite Heq.
  - intros Ht. subst r. by rewrite Create_accepted.
Qed.

(** C3: for any client, [ResolveIDByProvider] queries the key
    [(PVDR#type#id, IDENTITY)]; zero matching items give the
    [ErrAccountNotFound] sentinel; two or more give an error that matches
    no sentinel under [errors.Is]; a single item gives the account id of
    its decoded record: whenever none of the record's four fields holds a
    boolean the item decodes, and the result is the text of its [AccountID]
    attribute, a string or a number ("" when absent or NULL); a record
    written by [Create] always decodes to itself; a single item that does
    not decode gives the wrapped decoding error; a query error is wrapped,
    still matching what it matched. *)
Theorem ResolveIDByProvider_outcomes {W : Type} (client : DynamoDBAPI W) tbl (w : W) pt pid :
  let q := {| QTableName := tbl; QPK := AccountProviderSK pt pid; QSK := AccountIdentitySKName |} in
  let r := (ResolveIDByProvider client tbl w pt pid).2 in
  ((Query client w q).2 = Ok [] -> r = (EmptyAccountID, Some (Sentinel ErrAccountNotFound))) /\
  (forall it1 it2 rest, (Query client w q).2 = Ok (it1 :: it2 :: rest) ->
     exists e, r = (EmptyAccountID, Some e) /\ forall s, errors_Is e s = false) /\
  (forall it rec, (Query client w q).2 = Ok [it] -> UnmarshalMap it = Ok rec ->
     r = (AccountID rec, None)) /\
  (forall it, (Query client w q).2 = Ok [it] ->
     (forall name b, name ∈ ["AccountID"; "ProviderType"; "ProviderID"; "DateCreated"] ->
        it !! name <> Some (AVBOOL b)) ->
     r = (match it !! "AccountID" with Some (AVS a) | Some (AVN a) => a | _ => "" end, None)) /\
  (forall it e, (Query client w q).2 = Ok [it] -> UnmarshalMap it = Err e ->
     r = (EmptyAccountID, Some (Errorf "failed to unmarshal DynamoDB items: " (Some e)))) /\
  (forall e, (Query client w q).2 = Err e ->
     exists e', r = (EmptyAccountID, Some e') /\ forall s, errors_Is e' s = errors_Is e s) /\
  (forall rc, UnmarshalMap (MarshalMap rc) = Ok (RecordData rc)).
Proof.
  intros q r. subst r. unfold ResolveIDByProvider. fold q.
  destruct (Query client w q) as [w' res]. simpl.
  split; [|split; [|split; [|split; [|split; [|split]]]]].
  - by intros ->.
  - intros it1 it2 rest ->. eexists; split; [reflexivity|done].
  - intros it rec -> Hu. by rewrite Hu.
  - intros it -> Hnb. destruct (UnmarshalMap_no_bool it Hnb) as (rec & -> & <-). reflexivity.
  - intros it e -> Hu. by rewrite Hu.
  - intros e ->. eexists; split; [reflexivity|done].
  - apply UnmarshalMap_MarshalMap.
Qed.

End RepositoryProofs.

Module ServicesProofs.
Import Repository RepositoryProofs.

(** C6: with no provider registered for the requested type, [Authenticate]
    returns the [ErrProviderNotFound] sentinel itself (not wrapped), calls no
    provider and no repository operation, and leaves the repository state
    as it was. *)
Theorem Authenticate_unregistered_provider {St : Type} (registry : gmap string AuthProvider)
    (repo : Services.AccountsRepository St) (s : St) (input : Services.AuthenticateInput) :
  registry !! Services.ProviderType input = None ->
  Services.Authenticate registry repo s input = (s, [], Err (Sentinel ErrProviderNotFound)).
Proof. intros H. unfold Services.Authenticate, factory_Get. by rewrite H. Qed.

(** C2: once the provider returns subject [S], a resolved account id is
    returned with [IsNew = false]; a resolution error matching
    [ErrAccountNotFound] leads to [Create] for [(providerType, S)], whose
    id is returned with [IsNew = true]. *)
Theorem Authenticate_resolve_or_create {St : Type} (registry : gmap string AuthProvider)
    (repo : Services.AccountsRepository St) (s : St) (input : Services.AuthenticateInput)
    (provider : AuthProvider) (S : string) :
  registry !! Services.ProviderType input = Some provider ->
  Authenticate provider (Services.AuthData input) = Ok S ->
  let pt := Services.ProviderType input in
  (forall s1 acc, Services.ResolveIDByProvider repo s pt S = (s1, (acc, None)) ->
     Services.Authenticate registry repo s input =
       (s1, [Services.EvProviderAuthenticate pt; Services.EvResolve pt S],
        Ok {| Services.AccountID := acc; Services.IsNew := false |})) /\
  (forall s1 acc0 err s2 acc,
     Services.ResolveIDByProvider repo s pt S = (s1, (acc0, Some err)) ->
     errors_Is err ErrAccountNotFound = true ->
     Services.Create repo s1 pt S = (s2, (acc, None)) ->
     Services.Authenticate registry repo s input =
       (s2, [Services.EvProviderAuthenticate pt; Services.EvResolve pt S; Services.EvCreate pt S],
        Ok {| Services.AccountID := acc; Services.IsNew := true |})).
Proof.
  intros Hreg Hauth pt. subst pt. unfold Services.Authenticate, factory_Get.
  rewrite Hreg, Hauth. split.
  - intros s1 acc Hr. by rewrite Hr.
  - intros s1 acc0 err s2 acc Hr Hnf Hc. rewrite Hr, Hnf, Hc. reflexivity.
Qed.

(** A [Create] error keeps whatever it matched once [Authenticate] wraps it. *)
Lemma Authenticate_create_error {St : Type} (registry : gmap string AuthProvider)
    (repo : Services.AccountsRepository St) (s : St) (input : Services.AuthenticateInput)
    (provider : AuthProvider) (S : string) s1 acc0 err s2 acc e :
  registry !! Services.ProviderType input = Some provider ->
  Authenticate provider (Services.AuthData input) = Ok S ->
  Services.ResolveIDByProvider repo s (Services.ProviderType input) S = (s1, (acc0, Some err)) ->
  errors_Is err ErrAccountNotFound = true ->
  Services.Create repo s1 (Services.ProviderType input) S = (s2, (acc, Some e)) ->
  (Services.Authenticate registry repo s input).2 =
    Err (Errorf "failed to create account: " (Some e)).
Proof.
  intros Hreg Hauth Hr Hnf Hc. unfold Services.Authenticate, factory_Get.
  rewrite Hreg, Hauth, Hr, Hnf, Hc. reflexivity.
Qed.

Lemma applyPuts_Create_identity tbl t accountID now pt pid :
  applyPuts t (CreateTransactItems tbl accountID now pt pid)
    !! (AccountProviderSK pt pid, AccountIdentitySKName) =
  Some (MarshalMap {| RecordData := {| AccountID := accountID; ProviderType := pt;
                                       ProviderID := pid; DateCreatedISO8601 := now |};
                      PK := AccountProviderSK pt pid; SK := AccountIdentitySKName |}).
Proof.
  unfold applyPuts, CreateTransactItems. simpl. rewrite !itemKey_MarshalMap. simpl.
  rewrite lookup_insert_ne by (intros [=H _]; by apply (AccountProviderSK_ne_PK pt pid accountID)).
  by rewrite lookup_insert_eq.
Qed.

(** C8: the creation race. The orchestrator resolves [(pt, S)] on a table
    holding neither record; before its own [Create] runs, a concurrent
    caller's [Create] for the same [(pt, S)] (with account id [otherID])
    commits. The error [Authenticate] returns, wrapped with operation
    context, still matches [ErrProviderIDOrAccountAlreadyExists] under
    [errors.Is]. *)
Theorem Authenticate_creation_race_already_exists tbl (GenerateID : nat -> string) now
    (registry : gmap string AuthProvider) (input : Services.AuthenticateInput)
    (provider : AuthProvider) (S : string) (w : ddbWorld) (n : nat) (otherID : string) :
  registry !! Services.ProviderType input = Some provider ->
  Authenticate provider (Services.AuthData input) = Ok S ->
  table w !! (AccountProviderSK (Services.ProviderType input) S, AccountIdentitySKName) = None ->
  table w !! (AccountProviderPK otherID, AccountProviderSK (Services.ProviderType input) S) = None ->
  let concurrent := fun (st : ddbWorld * nat) =>
    ((Repository.Create dynamoDBClient tbl st.1 otherID now (Services.ProviderType input) S).1, st.2) in
  exists e,
    (Services.Authenticate registry
       (Services.withConcurrentStep (Services.dynamoRepository tbl GenerateID now) concurrent)
       (w, n) input).2 = Err e /\
    errors_Is e ErrProviderIDOrAccountAlreadyExists = true.
Proof.
  intros Hreg Hauth Hid Hacc concurrent.
  set (pt := Services.ProviderType input) in *.
  set (w1 := {| table := table w; calls := calls w ++
                  [CallQuery {| QTableName := tbl; QPK := AccountProviderSK pt S;
                                QSK := AccountIdentitySKName |}] |}).
  assert (Hres : Services.ResolveIDByProvider
                   (Services.withConcurrentStep (Services.dynamoRepository tbl GenerateID now) concurrent)
                   (w, n) pt S = ((w1, n), (EmptyAccountID, Some (Sentinel ErrAccountNotFound)))).
  { simpl. unfold Repository.ResolveIDByProvider. simpl. unfold ddbQuery. simpl. by rewrite Hid. }
  (* the concurrent caller commits both records *)
  assert (Hother : forallb (fun p => evalCond (PutCondition p) (table w1 !! itemKey (PutItem p)))
                     (CreateTransactItems tbl otherID now pt S) = true).
  { simpl. rewrite !itemKey_MarshalMap. simpl. by rewrite Hid, Hacc. }
  set (w2 := (Repository.Create dynamoDBClient tbl w1 otherID now pt S).1).
  assert (Ht2 : table w2 = applyPuts (table w) (CreateTransactItems tbl otherID now pt S)).
  { subst w2. by rewrite Create_accepted. }
  (* our own transaction is then rejected *)
  assert (Hours : forallb (fun p => evalCond (PutCondition p) (table w2 !! itemKey (PutItem p)))
                    (CreateTransactItems tbl (GenerateID n) now pt S) = false).
  { cbn [CreateTransactItems forallb PutCondition PutItem]. rewrite itemKey_MarshalMap.
    cbn [PK SK]. rewrite Ht2, applyPuts_Create_identity.
    rewrite evalCond_notExists_Some; [done|]. rewrite MarshalMap_PK. by eexists. }
  destruct (Create_rejected tbl w2 (GenerateID n) now pt S Hours) as (e & Hc & HIs).
  exists (Errorf "failed to create account: " (Some e)). split; [|done].
  eapply (Authenticate_create_error registry _ (w, n) input provider S (w1, n)); eauto.
  cbn [Services.Create Services.withConcurrentStep Services.dynamoRepository].
  unfold concurrent. cbn [fst snd]. fold w2 pt. rewrite Hc. reflexivity.
Qed.

End ServicesProofs.

Module ProviderProofs.

(** C4 (code defect): the guest provider does not read the client-supplied
    [id]; for [{"id": "device-123"}] (and for every data map) it returns the
    subject id "guest-id". *)
Theorem guest_ignores_supplied_id :
  GuestProvider_Authenticate (<["id" := "device-123"]> ∅) = Ok "guest-id" /\
  "guest-id" <> "device-123" /\
  (forall data, GuestProvider_Authenticate data = Ok "guest-id").
Proof. split; [reflexivity|split; [discriminate|reflexivity]]. Qed.

(** C5 (as stated, refuted): a Google authentication with a valid code whose
    exchanged identity token carries the nonce "server-nonce-B" while the
    client supplied "client-nonce-A" succeeds, and the orchestrator goes on
    to resolve and create an account. *)
Lemma C5_nonce_mismatch_counterexample :
  (match Scenario.googleParse "id-token-1" with Ok p => p_nonce p | Err _ => "" end)
    <> "client-nonce-A" /\
  Scenario.googleData !! "nonce" = Some "client-nonce-A" /\
  google_Authenticate Scenario.googleCreds Scenario.googleExchange Scenario.googleParse
    Scenario.googleData = Ok "google-sub-42" /\
  (let r := Services.Authenticate Scenario.registry Scenario.repo (Scenario.emptyWorld, 0%nat)
              {| Services.ProviderType := ProviderTypeGoogle; Services.AuthData := Scenario.googleData |} in
   r.1.2 = [Services.EvProviderAuthenticate "google"; Services.EvResolve "google" "google-sub-42";
            Services.EvCreate "google" "google-sub-42"] /\
   r.2 = Ok {| Services.AccountID := "acct-0"; Services.IsNew := true |}).
Proof. vm_compute. repeat split; discriminate || reflexivity. Qed.

(** C5 (amended): the Google provider performs no nonce check. Its
    [Authenticate] reads only the [token] field of the data map (two maps
    that agree there give the same result, so a client [nonce] field never
    matters), and the claims it decodes have no nonce: changing the nonce
    of every token the JWT library accepts changes nothing. For a [token]
    field whose exchange yields an identity token that the JWT library
    accepts and whose issuer and audience are the expected ones,
    [Authenticate] returns the token's subject, whatever nonce the token
    carries and whatever [nonce] field the client sends. With that provider
    registered for "google", the orchestrator then resolves the account for
    the subject, or creates it when resolution reports
    [ErrAccountNotFound]. *)
Theorem google_authenticate_ignores_nonce (creds : GoogleCredentials)
    (exchange : string -> result tokenResponse) (parse : string -> result idTokenPayload)
    (registry : gmap string AuthProvider)
    (data : gmap string string) (code : string) (resp : tokenResponse) (p : idTokenPayload) :
  data !! GoogleAuthCodeFieldName = Some code ->
  exchange code = Ok resp ->
  parse (IDToken resp) = Ok p ->
  p_iss p = g_IDTokenExpectedIssuer creds ->
  p_aud p = g_IDTokenExpectedAud creds ->
  registry !! ProviderTypeGoogle = Some (NewGoogleProvider creds exchange parse) ->
  (forall data1 data2, data1 !! GoogleAuthCodeFieldName = data2 !! GoogleAuthCodeFieldName ->
     google_Authenticate creds exchange parse data1 = google_Authenticate creds exchange parse data2) /\
  (forall (nonceOf : string -> string) data',
     google_Authenticate creds exchange
       (fun tok => match parse tok with
                   | Ok q => Ok {| p_iss := p_iss q; p_sub := p_sub q; p_aud := p_aud q;
                                   p_email := p_email q; p_nonce := nonceOf tok |}
                   | Err e => Err e
                   end) data' =
     google_Authenticate creds exchange parse data') /\
  google_Authenticate creds exchange parse data = Ok (p_sub p) /\
  (forall clientNonce,
     google_Authenticate creds exchange parse (<["nonce" := clientNonce]> data) = Ok (p_sub p)) /\
  (forall (St : Type) (repo : Services.AccountsRepository St) (s s1 : St) acc0 rerr,
     Services.ResolveIDByProvider repo s ProviderTypeGoogle (p_sub p) = (s1, (acc0, rerr)) ->
     let out := Services.Authenticate registry repo s
                  {| Services.ProviderType := ProviderTypeGoogle; Services.AuthData := data |} in
     (rerr = None ->
        out = (s1, [Services.EvProviderAuthenticate ProviderTypeGoogle;
                    Services.EvResolve ProviderTypeGoogle (p_sub p)],
               Ok {| Services.AccountID := acc0; Services.IsNew := false |})) /\
     (forall err s2 acc, rerr = Some err -> errors_Is err ErrAccountNotFound = true ->
        Services.Create repo s1 ProviderTypeGoogle (p_sub p) = (s2, (acc, None)) ->
        out = (s2, [Services.EvProviderAuthenticate ProviderTypeGoogle;
                    Services.EvResolve ProviderTypeGoogle (p_sub p);
                    Services.EvCreate ProviderTypeGoogle (p_sub p)],
               Ok {| Services.AccountID := acc; Services.IsNew := true |}))).
Proof.
  intros Hd He Hp Hi Ha Hreg.
  assert (Hv : google_verifyIDToken creds parse (IDToken resp) = Ok (decodeGoogleClaims p)).
  { unfold google_verifyIDToken. rewrite Hp. cbn [gc_Issuer gc_Audience decodeGoogleClaims].
    rewrite Hi, Ha. rewrite !bool_decide_eq_false_2 by tauto. reflexivity. }
  assert (Hok : google_Authenticate creds exchange parse data = Ok (p_sub p)).
  { unfold google_Authenticate. by rewrite Hd, He, Hv. }
  split; [|split; [|split; [exact Hok|split]]].
  - intros data1 data2 H12. unfold google_Authenticate. by rewrite H12.
  - intros nonceOf data'. unfold google_Authenticate, google_verifyIDToken.
    destruct (data' !! GoogleAuthCodeFieldName) as [c|]; [|reflexivity].
    destruct (exchange c) as [r|]; [|reflexivity].
    destruct (parse (IDToken r)); reflexivity.
  - intros n. unfold google_Authenticate.
    rewrite lookup_insert_ne by (unfold GoogleAuthCodeFieldName; discriminate).
    by rewrite Hd, He, Hv.
  - intros St repo s s1 acc0 rerr Hr out. subst out.
    unfold Services.Authenticate, factory_Get. cbn [Services.ProviderType Services.AuthData].
    rewrite Hreg. cbn [Authenticate NewGoogleProvider]. rewrite Hok, Hr. split.
    + intros ->. reflexivity.
    + intros err s2 acc -> Hnf Hc. rewrite Hnf, Hc. reflexivity.
Qed.

(** C10: the Apple provider fails with a missing-required-field error when
    the [email] key is absent; when it is the empty string, the email
    comparison is skipped and authentication succeeds whatever email the
    token carries; a non-empty email must equal the token's email claim,
    otherwise verification fails with "invalid email". *)
Theorem apple_email_handling (creds : AppleCredentials)
    (exchange : string -> result tokenResponse) (parse : string -> result idTokenPayload) :
  (forall data, data !! AppleEmailFieldName = None ->
     exists name, apple_Authenticate creds exchange parse data = Err (missingField name)) /\
  (forall tok nonce email p,
     parse tok = Ok p ->
     p_iss p = a_IDTokenExpectedIssuer creds ->
     p_aud p = a_IDTokenExpectedAudience creds ->
     p_nonce p = nonce ->
     (email = "" -> apple_verifyIDToken creds parse tok nonce email = Ok (decodeAppleClaims p)) /\
     (email <> "" -> email = p_email p ->
        apple_verifyIDToken creds parse tok nonce email = Ok (decodeAppleClaims p)) /\
     (email <> "" -> email <> p_email p ->
        apple_verifyIDToken creds parse tok nonce email = Err (NewError "invalid email"))) /\
  (forall data idTok code resp p,
     data !! AppleIdentityTokenFieldName = Some idTok ->
     data !! AppleAuthorizationCodeFieldName = Some code ->
     data !! AppleUserIDFieldName = Some (p_sub p) ->
     data !! AppleNonceFieldName = Some (p_nonce p) ->
     exchange code = Ok resp ->
     parse (IDToken resp) = Ok p ->
     p_iss p = a_IDTokenExpectedIssuer creds ->
     p_aud p = a_IDTokenExpectedAudience creds ->
     (data !! AppleEmailFieldName = Some "" ->
        apple_Authenticate creds exchange parse data = Ok (p_sub p)) /\
     (forall email, data !! AppleEmailFieldName = Some email -> email <> "" -> email <> p_email p ->
        apple_Authenticate creds exchange parse data =
          Err (Errorf "failed to verify id token: " (Some (NewError "invalid email"))))).
Proof.
  assert (Hver : forall tok nonce email p,
     parse tok = Ok p ->
     p_iss p = a_IDTokenExpectedIssuer creds ->
     p_aud p = a_IDTokenExpectedAudience creds ->
     p_nonce p = nonce ->
     apple_verifyIDToken creds parse tok nonce email =
       if bool_decide (email <> "") && bool_decide (email <> p_email p)
       then Err (NewError "invalid email") else Ok (decodeAppleClaims p)).
  { intros tok nonce email p Hp Hi Ha Hn. unfold apple_verifyIDToken. rewrite Hp.
    cbn [ac_Issuer ac_Audience ac_Nonce ac_Email decodeAppleClaims].
    rewrite Hi, Ha, Hn. rewrite !(bool_decide_eq_false_2 (_ <> _)) by tauto. reflexivity. }
  split; [|split].
  - intros data He. unfold apple_Authenticate.
    destruct (data !! AppleIdentityTokenFieldName); [|by eexists].
    destruct (data !! AppleAuthorizationCodeFieldName); [|by eexists].
    destruct (data !! AppleUserIDFieldName); [|by eexists].
    destruct (data !! AppleNonceFieldName); [|by eexists].
    rewrite He. by eexists.
  - intros tok nonce email p Hp Hi Ha Hn. rewrite (Hver tok nonce email p Hp Hi Ha Hn).
    split; [|split].
    + intros ->. reflexivity.
    + intros Hne Heq. rewrite (bool_decide_eq_true_2 _ Hne).
      by rewrite bool_decide_eq_false_2 by tauto.
    + intros Hne Hne'. rewrite (bool_decide_eq_true_2 _ Hne).
      by rewrite bool_decide_eq_true_2.
  - intros data idTok code resp p Hid Hc Hu Hn Hx Hp Hi Ha. split.
    + intros He. unfold apple_Authenticate. rewrite Hid, Hc, Hu, Hn, He, Hx.
      rewrite (Hver _ _ _ p Hp Hi Ha eq_refl). simpl.
      by rewrite bool_decide_eq_false_2 by tauto.
    + intros email He Hne Hne'. unfold apple_Authenticate. rewrite Hid, Hc, Hu, Hn, He, Hx.
      rewrite (Hver _ _ _ p Hp Hi Ha eq_refl).
      rewrite (bool_decide_eq_true_2 _ Hne), (bool_decide_eq_true_2 _ Hne'). reflexivity.
Qed.

End ProviderProofs.

(* ------------------------------------------------------------------ *)
(** ** The theorems applied to the concrete deployment of [Scenario] *)

Module Witnesses.
Import ServicesProofs ProviderProofs.

Lemma Authenticate_unregistered_provider_witness :
  Scenario.registry !! ProviderTypeApple = None /\
  Services.Authenticate Scenario.registry Scenario.repo (Scenario.emptyWorld, 0%nat)
    {| Services.ProviderType := ProviderTypeApple; Services.AuthData := ∅ |} =
  ((Scenario.emptyWorld, 0%nat), [], Err (Sentinel ErrProviderNotFound)).
Proof.
  split; [vm_compute; reflexivity|].
  apply Authenticate_unregistered_provider. vm_compute. reflexivity.
Defined.

Lemma Authenticate_resolve_or_create_witness :
  Scenario.registry !! ProviderTypeGoogle = Some Scenario.googleProvider /\
  Authenticate Scenario.googleProvider Scenario.googleData = Ok "google-sub-42" /\
  (let pt := ProviderTypeGoogle in
   (forall s1 acc, Services.ResolveIDByProvider Scenario.repo (Scenario.emptyWorld, 0%nat) pt "google-sub-42"
                   = (s1, (acc, None)) ->
      Services.Authenticate Scenario.registry Scenario.repo (Scenario.emptyWorld, 0%nat) Scenario.googleInput =
        (s1, [Services.EvProviderAuthenticate pt; Services.EvResolve pt "google-sub-42"],
         Ok {| Services.AccountID := acc; Services.IsNew := false |})) /\
   (forall s1 acc0 err s2 acc,
      Services.ResolveIDByProvider Scenario.repo (Scenario.emptyWorld, 0%nat) pt "google-sub-42"
        = (s1, (acc0, Some err)) ->
      errors_Is err ErrAccountNotFound = true ->
      Services.Create Scenario.repo s1 pt "google-sub-42" = (s2, (acc, None)) ->
      Services.Authenticate Scenario.registry Scenario.repo (Scenario.emptyWorld, 0%nat) Scenario.googleInput =
        (s2, [Services.EvProviderAuthenticate pt; Services.EvResolve pt "google-sub-42";
              Services.EvCreate pt "google-sub-42"],
         Ok {| Services.AccountID := acc; Services.IsNew := true |}))).
Proof.
  split; [vm_compute; reflexivity|]. split; [vm_compute; reflexivity|].
  apply (Authenticate_resolve_or_create Scenario.registry Scenario.repo
           (Scenario.emptyWorld, 0%nat) Scenario.googleInput Scenario.googleProvider "google-sub-42");
    vm_compute; reflexivity.
Defined.

Lemma Authenticate_creation_race_already_exists_witness :
  exists e,
    (Services.Authenticate Scenario.registry
       (Services.withConcurrentStep Scenario.repo
          (fun st => ((Repository.Create Repository.dynamoDBClient Scenario.tableName st.1
                         "acct-other" Scenario.now ProviderTypeGoogle "google-sub-42").1, st.2)))
       (Scenario.emptyWorld, 0%nat) Scenario.googleInput).2 = Err e /\
    errors_Is e ErrProviderIDOrAccountAlreadyExists = true.
Proof.
  apply (Authenticate_creation_race_already_exists Scenario.tableName Scenario.GenerateID
           Scenario.now Scenario.registry Scenario.googleInput Scenario.googleProvider "google-sub-42"
           Scenario.emptyWorld 0%nat "acct-other"); vm_compute; reflexivity.
Defined.

Lemma google_authenticate_ignores_nonce_witness :
  (forall data1 data2, data1 !! GoogleAuthCodeFieldName = data2 !! GoogleAuthCodeFieldName ->
     google_Authenticate Scenario.googleCreds Scenario.googleExchange Scenario.googleParse data1 =
     google_Authenticate Scenario.googleCreds Scenario.googleExchange Scenario.googleParse data2) /\
  (forall (nonceOf : string -> string) data',
     google_Authenticate Scenario.googleCreds Scenario.googleExchange
       (fun tok => match Scenario.googleParse tok with
                   | Ok q => Ok {| p_iss := p_iss q; p_sub := p_sub q; p_aud := p_aud q;
                                   p_email := p_email q; p_nonce := nonceOf tok |}
                   | Err e => Err e
                   end) data' =
     google_Authenticate Scenario.googleCreds Scenario.googleExchange Scenario.googleParse data') /\
  google_Authenticate Scenario.googleCreds Scenario.googleExchange Scenario.googleParse
    Scenario.googleData = Ok "google-sub-42" /\
  (forall clientNonce,
     google_Authenticate Scenario.googleCreds Scenario.googleExchange Scenario.googleParse
       (<["nonce" := clientNonce]> Scenario.googleData) = Ok "google-sub-42") /\
  (forall (St : Type) (repo : Services.AccountsRepository St) (s s1 : St) acc0 rerr,
     Services.ResolveIDByProvider repo s ProviderTypeGoogle "google-sub-42" = (s1, (acc0, rerr)) ->
     let out := Services.Authenticate Scenario.registry repo s
                  {| Services.ProviderType := ProviderTypeGoogle;
                     Services.AuthData := Scenario.googleData |} in
     (rerr = None ->
        out = (s1, [Services.EvProviderAuthenticate ProviderTypeGoogle;
                    Services.EvResolve ProviderTypeGoogle "google-sub-42"],
               Ok {| Services.AccountID := acc0; Services.IsNew := false |})) /\
     (forall err s2 acc, rerr = Some err -> errors_Is err ErrAccountNotFound = true ->
        Services.Create repo s1 ProviderTypeGoogle "google-sub-42" = (s2, (acc, None)) ->
        out = (s2, [Services.EvProviderAuthenticate ProviderTypeGoogle;
                    Services.EvResolve ProviderTypeGoogle "google-sub-42";
                    Services.EvCreate ProviderTypeGoogle "google-sub-42"],
               Ok {| Services.AccountID := acc; Services.IsNew := true |}))).
Proof.
  apply (google_authenticate_ignores_nonce Scenario.googleCreds Scenario.googleExchange
           Scenario.googleParse Scenario.registry Scenario.googleData "valid-code"
           {| AccessToken := "at"; TokenType := "Bearer"; IDToken := "id-token-1" |}
           {| p_iss := "https://accounts.google.com"; p_sub := "google-sub-42";
              p_aud := "client-1"; p_email := "player@example.com"; p_nonce := "server-nonce-B" |});
    vm_compute; reflexivity.
Defined.

End Witnesses.

(* ================================================================== *)
(** * Further properties of the code *)

Module CacheExtraProofs.
Import Certs.

(** X1: a second [Add] for the same id replaces the first entry, its key and
    its expiry (a later [Add] with an earlier expiry shortens the validity),
    and an [Add] leaves [Get] of every other id unchanged. *)
Theorem cache_add_overwrites_and_isolates {K : Type} (cm : gmap string (@cacheEntry K))
    (k : string) (key1 key2 : K) (t1 t2 : time) :
  (forall now, Get (Add (Add cm k key1 t1) k key2 t2) now k =
               if bool_decide (Unix now < Unix t2) then Some key2 else None) /\
  (forall k' now, k' <> k -> Get (Add cm k key1 t1) now k' = Get cm now k').
Proof.
  split.
  - intros now. unfold Get, Add. by rewrite lookup_insert_eq.
  - intros k' now Hne. unfold Get, Add. by rewrite lookup_insert_ne by congruence.
Qed.

(** X2: expiry is permanent: once [Get] returns nil for an id at some
    instant, it returns nil at every later instant until the id is added
    again. *)
Theorem cache_miss_persists {K : Type} (cm : gmap string (@cacheEntry K)) (k : string)
    (now later : time) :
  now <= later -> Get cm now k = None -> Get cm later k = None.
Proof.
  intros Hle. unfold Get. destruct (cm !! k) as [e|]; [|done].
  pose proof (CacheProofs.Unix_mono now later Hle) as Hm.
  case_bool_decide; [discriminate|]. intros _.
  by rewrite bool_decide_eq_false_2 by lia.
Qed.
End CacheExtraProofs.

Module RegistryExtraProofs.

(** X3: the provider registry: [Get] after [Add(t, p)] returns [p] (a later
    [Add] for the same type replaces the earlier provider); [Get] after
    [Remove(t)] fails with the [ErrProviderNotFound] sentinel; [Add] and
    [Remove] of one type leave [Get] of every other type unchanged. *)
Theorem factory_add_get_remove (registry : gmap string AuthProvider) (pt : string)
    (p1 p2 : AuthProvider) :
  factory_Get (factory_Add registry pt p1) pt = Ok p1 /\
  factory_Get (factory_Add (factory_Add registry pt p1) pt p2) pt = Ok p2 /\
  factory_Get (factory_Remove registry pt) pt = Err (Sentinel ErrProviderNotFound) /\
  (forall pt', pt' <> pt ->
     factory_Get (factory_Add registry pt p1) pt' = factory_Get registry pt' /\
     factory_Get (factory_Remove registry pt) pt' = factory_Get registry pt').
Proof.
  unfold factory_Get, factory_Add, factory_Remove.
  split; [|split; [|split]].
  - by rewrite lookup_insert_eq.
  - by rewrite lookup_insert_eq.
  - by rewrite lookup_delete_eq.
  - intros pt' Hne. by rewrite lookup_insert_ne, lookup_delete_ne by congruence.
Qed.
End RegistryExtraProofs.

Module KeyEncodingProofs.
Import Repository.

(** X4: for the three provider types of the domain, the sort key
    [PVDR#type#id] determines the provider type and the provider id; for
    types containing '#' it does not: ("x#y", "z") and ("x", "y#z") share a
    key. *)
Theorem AccountProviderSK_injective_on_provider_types (pt1 pt2 id1 id2 : string) :
  pt1 ∈ [ProviderTypeGuest; ProviderTypeGoogle; ProviderTypeApple] ->
  pt2 ∈ [ProviderTypeGuest; ProviderTypeGoogle; ProviderTypeApple] ->
  (AccountProviderSK pt1 id1 = AccountProviderSK pt2 id2 <-> pt1 = pt2 /\ id1 = id2) /\
  AccountProviderSK "x#y" "z" = AccountProviderSK "x" "y#z".
Proof.
  intros H1 H2. split; [|reflexivity].
  split; [|by intros [-> ->]].
  assert (Hc : forall pt, pt ∈ [ProviderTypeGuest; ProviderTypeGoogle; ProviderTypeApple] ->
                pt = "guest" \/ pt = "google" \/ pt = "apple").
  { intros pt. rewrite !elem_of_cons, elem_of_nil. unfold ProviderTypeGuest, ProviderTypeGoogle,
      ProviderTypeApple. tauto. }
  unfold AccountProviderSK.
  destruct (Hc _ H1) as [-> | [-> | ->]]; destruct (Hc _ H2) as [-> | [-> | ->]];
    simpl; intros H; inversion H; auto.
Qed.
End KeyEncodingProofs.

Module ErrorChainProofs.

(** X5: [ListWrappedErrors] of nil is empty; for a non-nil error it starts
    with the error itself, each further element is the [errors.Unwrap] of
    the one before (the list stops where [Unwrap] gives nil), and a sentinel
    is in the list exactly when [errors.Is] matches it. *)
Theorem ListWrappedErrors_chain (err : goerror) :
  ListWrappedErrors None = [] /\
  head (ListWrappedErrors (Some err)) = Some err /\
  (forall i e, ListWrappedErrors (Some err) !! i = Some e ->
               ListWrappedErrors (Some err) !! S i = errors_Unwrap e) /\
  (forall s, errors_Is err s = true <-> Sentinel s ∈ ListWrappedErrors (Some err)).
Proof.
  cbn [ListWrappedErrors]. split; [done|]. split; [by destruct err as [|? []| |]|].
  revert err. fix IH 1. intros err.
  destruct err as [t|msg [inner|]|rs|t]; cbn [unwrapChain errors_Is].
  - split.
    + intros [|i] e; simpl; [by intros [= <-]|by rewrite lookup_nil].
    + intros s. rewrite list_elem_of_singleton. split.
      * by intros ->%bool_decide_eq_true_1.
      * intros [= ->]. by apply bool_decide_eq_true_2.
  - destruct (IH inner) as [Hn Hs]. split.
    + intros [|i] e; simpl.
      * intros [= <-]. by destruct inner as [|? []| |].
      * apply Hn.
    + intros s. rewrite Hs, elem_of_cons. split; [by right|].
      intros [[=]|?]; done.
  - split.
    + intros [|i] e; simpl; [by intros [= <-]|by rewrite lookup_nil].
    + intros s. rewrite list_elem_of_singleton. split; [discriminate|intros [=]].
  - split.
    + intros [|i] e; simpl; [by intros [= <-]|by rewrite lookup_nil].
    + intros s. rewrite list_elem_of_singleton. split; [discriminate|intros [=]].
  - split.
    + intros [|i] e; simpl; [by intros [= <-]|by rewrite lookup_nil].
    + intros s. rewrite list_elem_of_singleton. split; [discriminate|intros [=]].
Qed.
End ErrorChainProofs.

Module StoreExtraProofs.
Import Repository RepositoryProofs.

(** Every identity item [(k, IDENTITY)] has an account item
    [(ACNT#<its AccountID>, k)] beside it. *)
Definition identitiesHaveAccounts (t : gmap (string * string) Item) : Prop :=
  forall k it, t !! (k, AccountIdentitySKName) = Some it ->
    is_Some (t !! (AccountProviderPK (attrS it "AccountID"), k)).

Lemma attrS_MarshalMap_AccountID r : attrS (MarshalMap r) "AccountID" = AccountID (RecordData r).
Proof. unfold attrS, MarshalMap. by simplify_map_eq. Qed.

Lemma Create_outcome tbl w accountID now pt pid :
  let r := Create dynamoDBClient tbl w accountID now pt pid in
  (table r.1 = applyPuts (table w) (CreateTransactItems tbl accountID now pt pid) /\
   r.2 = (accountID, None)) \/
  (table r.1 = table w /\ exists e, r.2 = (EmptyAccountID, Some e) /\
                                    errors_Is e ErrProviderIDOrAccountAlreadyExists = true).
Proof.
  destruct (forallb (fun p => evalCond (PutCondition p) (table w !! itemKey (PutItem p)))
                    (CreateTransactItems tbl accountID now pt pid)) eqn:Hf.
  - left. by rewrite Create_accepted.
  - right. destruct (Create_rejected tbl w accountID now pt pid Hf) as (e & -> & He). eauto.
Qed.

Lemma ResolveIDByProvider_table tbl w pt pid :
  table (ResolveIDByProvider dynamoDBClient tbl w pt pid).1 = table w.
Proof. reflexivity. Qed.

(** X6: the store invariant "every identity item has its account item"
    holds on an empty table and is kept by every [Create] (accepted or
    rejected) and every [ResolveIDByProvider]: the two records are written
    together or not at all. *)
Theorem Create_keeps_identity_account_invariant tbl (w : ddbWorld) accountID now pt pid :
  identitiesHaveAccounts ∅ /\
  (identitiesHaveAccounts (table w) ->
   identitiesHaveAccounts (table (Create dynamoDBClient tbl w accountID now pt pid).1) /\
   identitiesHaveAccounts (table (ResolveIDByProvider dynamoDBClient tbl w pt pid).1)).
Proof.
  split; [intros k it; by rewrite lookup_empty|].
  intros Hinv. split; [|by rewrite ResolveIDByProvider_table].
  destruct (Create_outcome tbl w accountID now pt pid) as [[-> _]|[-> _]]; [|done].
  intros k it. unfold applyPuts, CreateTransactItems. simpl. rewrite !itemKey_MarshalMap. simpl.
  set (kid := (AccountProviderSK pt pid, AccountIdentitySKName)).
  set (kacc := (AccountProviderPK accountID, AccountProviderSK pt pid)).
  destruct (decide ((k, AccountIdentitySKName) = kacc)) as [Heq|Hne1].
  { subst kacc. injection Heq as _ Heq. unfold AccountIdentitySKName, AccountProviderSK in Heq.
    discriminate. }
  rewrite lookup_insert_ne by done.
  destruct (decide ((k, AccountIdentitySKName) = kid)) as [Heq|Hne2].
  - subst kid. injection Heq as ->. rewrite lookup_insert_eq. intros [= <-].
    rewrite attrS_MarshalMap_AccountID. simpl. rewrite lookup_insert_eq. by eexists.
  - rewrite lookup_insert_ne by done. intros Hk. destruct (Hinv k it Hk) as [v Hv].
    destruct (decide ((AccountProviderPK (attrS it "AccountID"), k) = kacc)) as [->|Hne3];
      [rewrite lookup_insert_eq; by eexists|].
    rewrite lookup_insert_ne by done.
    destruct (decide ((AccountProviderPK (attrS it "AccountID"), k) = kid)) as [->|Hne4];
      [rewrite lookup_insert_eq; by eexists|].
    rewrite lookup_insert_ne by done. by eexists.
Qed.

(** X7: on the DynamoDB store, once [Create] for [(pt, pid)] succeeds with
    [accountID], [ResolveIDByProvider(pt, pid)] returns [accountID], and any
    further [Create] for [(pt, pid)], whatever account id it generates,
    fails with [ErrProviderIDOrAccountAlreadyExists] and writes nothing. *)
Theorem Create_then_Resolve_and_duplicate tbl (w : ddbWorld) accountID now pt pid :
  (Create dynamoDBClient tbl w accountID now pt pid).2 = (accountID, None) ->
  let w1 := (Create dynamoDBClient tbl w accountID now pt pid).1 in
  (ResolveIDByProvider dynamoDBClient tbl w1 pt pid).2 = (accountID, None) /\
  (forall accountID' now',
     exists e, (Create dynamoDBClient tbl w1 accountID' now' pt pid).2 = (EmptyAccountID, Some e) /\
               errors_Is e ErrProviderIDOrAccountAlreadyExists = true /\
               table (Create dynamoDBClient tbl w1 accountID' now' pt pid).1 = table w1).
Proof.
  intros Hok w1.
  assert (Ht : table w1 = applyPuts (table w) (CreateTransactItems tbl accountID now pt pid)).
  { destruct (Create_outcome tbl w accountID now pt pid) as [[? _]|[_ (e & He & _)]]; [done|].
    rewrite He in Hok. discriminate. }
  split.
  - unfold ResolveIDByProvider. simpl. rewrite Ht, ServicesProofs.applyPuts_Create_identity.
    by rewrite UnmarshalMap_MarshalMap.
  - intros accountID' now'.
    assert (Hf : forallb (fun p => evalCond (PutCondition p) (table w1 !! itemKey (PutItem p)))
                   (CreateTransactItems tbl accountID' now' pt pid) = false).
    { cbn [CreateTransactItems forallb PutCondition PutItem]. rewrite itemKey_MarshalMap.
      cbn [PK SK]. rewrite Ht, ServicesProofs.applyPuts_Create_identity.
      rewrite evalCond_notExists_Some; [done|]. rewrite MarshalMap_PK. by eexists. }
    destruct (Create_rejected tbl w1 accountID' now' pt pid Hf) as (e & Hc & He).
    exists e. by rewrite Hc.
Qed.
End StoreExtraProofs.

Module EnrichExtraProofs.
Import Repository.

(** A cancellation reason whose code is absent or "None". *)
Definition reasonPassed (r : option string * option string) : Prop :=
  r.1 = None \/ r.1 = Some "None".

Lemma enrichReasons_skip ops i pre rest :
  Forall reasonPassed pre ->
  enrichReasons ops i (pre ++ rest) = enrichReasons ops (i + length pre) rest.
Proof.
  revert i. induction pre as [|[code msg] pre IH]; intros i Hall; simpl.
  - by rewrite Nat.add_0_r.
  - inversion Hall as [|? ? Hr Hrest]; subst. unfold reasonPassed in Hr. simpl in Hr.
    rewrite <- Nat.add_succ_comm.
    destruct Hr as [-> | ->]; [by apply IH|].
    rewrite bool_decide_eq_false_2 by tauto. by apply IH.
Qed.

Lemma enrichReasons_all_passed ops i reasons :
  Forall reasonPassed reasons -> enrichReasons ops i reasons = None.
Proof.
  intros H. rewrite <- (app_nil_r reasons), enrichReasons_skip by done. reflexivity.
Qed.

Lemma enrich_first_failure err ops pre c msg post :
  asTransactionCanceled err = Some (pre ++ (Some c, msg) :: post) ->
  Forall reasonPassed pre -> c <> "None" ->
  exists inner,
    enrichErrorWithOperationContext err ops =
      Errorf ("operation: " +:+ default "Unknown" (ops !! length pre) +:+ ", index: "
              +:+ pretty (length pre) +:+ ", reason: "
              +:+ match msg with Some m => c +:+ ": " +:+ m | None => c end +:+ ": ")
             (Some inner) /\
    (forall s, errors_Is inner s = bool_decide (c = "ConditionalCheckFailed" /\ s = errTransactionErrorConditionFailed)) /\
    asTransactionCanceled inner = None.
Proof.
  intros Has Hpre Hc. unfold enrichErrorWithOperationContext. rewrite Has.
  rewrite enrichReasons_skip by done. cbn [enrichReasons Nat.add].
  rewrite bool_decide_eq_true_2 by done. cbn [default].
  eexists; split; [reflexivity|]. split; [|by case_bool_decide]. intros s.
  destruct (decide (c = "ConditionalCheckFailed")) as [->|Hne].
  - rewrite (bool_decide_eq_true_2 ("ConditionalCheckFailed" = "ConditionalCheckFailed")) by done.
    cbn [errors_Is]. apply bool_decide_ext. unfold errTransactionErrorConditionFailed. naive_solver.
  - rewrite bool_decide_eq_false_2 by done. cbn [errors_Is].
    symmetry. apply bool_decide_eq_false_2. tauto.
Qed.

(** X8: [enrichErrorWithOperationContext] leaves an error unchanged when it
    carries no [TransactionCanceledException] or when every cancellation
    reason has an absent or "None" code; otherwise it reports the first
    reason with another code, naming the operation at that index ("Unknown"
    past the end of the operation list) and the index, and the result
    matches [errTransactionErrorConditionFailed] exactly when that code is
    "ConditionalCheckFailed" and matches nothing else, and no link of its
    chain is a [TransactionCanceledException] any more ([errors.As] finds
    none): the SDK error leaves the chain. *)
Theorem enrichErrorWithOperationContext_first_failure (err : goerror) (ops : list string) :
  (asTransactionCanceled err = None -> enrichErrorWithOperationContext err ops = err) /\
  (forall reasons, asTransactionCanceled err = Some reasons -> Forall reasonPassed reasons ->
     enrichErrorWithOperationContext err ops = err) /\
  (forall pre c msg post,
     asTransactionCanceled err = Some (pre ++ (Some c, msg) :: post) ->
     Forall reasonPassed pre -> c <> "None" ->
     (exists inner,
        enrichErrorWithOperationContext err ops =
          Errorf ("operation: " +:+ default "Unknown" (ops !! length pre) +:+ ", index: "
                  +:+ pretty (length pre) +:+ ", reason: "
                  +:+ match msg with Some m => c +:+ ": " +:+ m | None => c end +:+ ": ")
                 (Some inner)) /\
     (forall s, errors_Is (enrichErrorWithOperationContext err ops) s =
                bool_decide (c = "ConditionalCheckFailed" /\ s = errTransactionErrorConditionFailed)) /\
     asTransactionCanceled (enrichErrorWithOperationContext err ops) = None).
Proof.
  split; [|split].
  - intros H. unfold enrichErrorWithOperationContext. by rewrite H.
  - intros reasons H Hall. unfold enrichErrorWithOperationContext. rewrite H.
    by rewrite enrichReasons_all_passed.
  - intros pre c msg post Has Hpre Hc.
    destruct (enrich_first_failure err ops pre c msg post Has Hpre Hc) as (inner & -> & Hi & Hn).
    split; [by eexists|split]; [intros s; apply Hi|exact Hn].
Qed.

(** X9: for any DynamoDB client, when the transaction of [Create] is
    cancelled and the first cancellation reason with a code other than
    "None" has code [c], [Create] returns the empty id and an error that
    matches [ErrProviderIDOrAccountAlreadyExists] if [c] is
    "ConditionalCheckFailed" and matches no sentinel at all otherwise (for
    instance for "TransactionConflict"). *)
Theorem Create_cancellation_classification {W : Type} (client : DynamoDBAPI W) tbl (w w' : W)
    accountID now pt pid e pre c msg post :
  TransactWriteItems client w (CreateTransactItems tbl accountID now pt pid) = (w', Some e) ->
  asTransactionCanceled e = Some (pre ++ (Some c, msg) :: post) ->
  Forall reasonPassed pre -> c <> "None" ->
  exists e', Create client tbl w accountID now pt pid = (w', (EmptyAccountID, Some e')) /\
    (forall s, errors_Is e' s =
               bool_decide (c = "ConditionalCheckFailed" /\ s = ErrProviderIDOrAccountAlreadyExists)).
Proof.
  intros Htx Has Hpre Hc. unfold Create. rewrite Htx.
  destruct (enrich_first_failure e ["PUT Provider Identity data"; "PUT Account data"]
              pre c msg post Has Hpre Hc) as (inner & -> & Hi & _).
  cbn [errors_Is]. rewrite Hi.
  eexists; split; [reflexivity|]. intros s. cbn [errors_Is].
  destruct (decide (c = "ConditionalCheckFailed")) as [->|Hne].
  - rewrite (bool_decide_eq_true_2 (_ /\ _)) by done. cbn [errors_Is].
    apply bool_decide_ext. naive_solver.
  - rewrite (bool_decide_eq_false_2 (_ /\ _)) by tauto. cbn [errors_Is].
    rewrite Hi. symmetry. rewrite !bool_decide_eq_false_2; tauto.
Qed.
End EnrichExtraProofs.

Module ServicesExtraProofs.
Import Repository RepositoryProofs.

(** X10: the error paths of the orchestrator: a provider error is returned
    as is, after the provider call only; a resolution error that does not
    match [ErrAccountNotFound] is returned wrapped with "failed to resolve
    account ID", and [Create] is not called; a [Create] error is returned
    wrapped with "failed to create account". *)
Theorem Authenticate_error_paths {St : Type} (registry : gmap string AuthProvider)
    (repo : Services.AccountsRepository St) (s : St) (input : Services.AuthenticateInput)
    (provider : AuthProvider) :
  registry !! Services.ProviderType input = Some provider ->
  let pt := Services.ProviderType input in
  (forall e, Authenticate provider (Services.AuthData input) = Err e ->
     Services.Authenticate registry repo s input = (s, [Services.EvProviderAuthenticate pt], Err e)) /\
  (forall S s1 acc err, Authenticate provider (Services.AuthData input) = Ok S ->
     Services.ResolveIDByProvider repo s pt S = (s1, (acc, Some err)) ->
     errors_Is err ErrAccountNotFound = false ->
     Services.Authenticate registry repo s input =
       (s1, [Services.EvProviderAuthenticate pt; Services.EvResolve pt S],
        Err (Errorf "failed to resolve account ID: " (Some err)))) /\
  (forall S s1 acc0 err s2 acc e, Authenticate provider (Services.AuthData input) = Ok S ->
     Services.ResolveIDByProvider repo s pt S = (s1, (acc0, Some err)) ->
     errors_Is err ErrAccountNotFound = true ->
     Services.Create repo s1 pt S = (s2, (acc, Some e)) ->
     Services.Authenticate registry repo s input =
       (s2, [Services.EvProviderAuthenticate pt; Services.EvResolve pt S; Services.EvCreate pt S],
        Err (Errorf "failed to create account: " (Some e)))).
Proof.
  intros Hreg pt. subst pt. unfold Services.Authenticate, factory_Get. rewrite Hreg.
  split; [|split].
  - intros e He. by rewrite He.
  - intros S s1 acc err Ha Hr Hn. by rewrite Ha, Hr, Hn.
  - intros S s1 acc0 err s2 acc e Ha Hr Hn Hc. by rewrite Ha, Hr, Hn, Hc.
Qed.

(** X11: with the DynamoDB repository, the first authentication of a
    provider subject [sub] whose identity and generated account keys are free
    returns the generated id [GenerateID n] with [IsNew = true]; a second
    authentication with the same input then returns the same id with
    [IsNew = false], draws no new id and writes nothing. *)
Theorem Authenticate_dynamo_new_then_returning tbl (GenerateID : nat -> string) now
    (registry : gmap string AuthProvider) (input : Services.AuthenticateInput)
    (provider : AuthProvider) (sub : string) (w : ddbWorld) (n : nat) :
  registry !! Services.ProviderType input = Some provider ->
  Authenticate provider (Services.AuthData input) = Ok sub ->
  table w !! (AccountProviderSK (Services.ProviderType input) sub, AccountIdentitySKName) = None ->
  table w !! (AccountProviderPK (GenerateID n), AccountProviderSK (Services.ProviderType input) sub) = None ->
  let repo := Services.dynamoRepository tbl GenerateID now in
  let r1 := Services.Authenticate registry repo (w, n) input in
  let r2 := Services.Authenticate registry repo r1.1.1 input in
  r1.2 = Ok {| Services.AccountID := GenerateID n; Services.IsNew := true |} /\
  r2.2 = Ok {| Services.AccountID := GenerateID n; Services.IsNew := false |} /\
  r2.1.1.2 = (Datatypes.S n) /\ table r2.1.1.1 = table r1.1.1.1.
Proof.
  intros Hreg Hauth Hid Hacc repo.
  set (pt := Services.ProviderType input) in *.
  set (q := {| QTableName := tbl; QPK := AccountProviderSK pt sub; QSK := AccountIdentitySKName |}).
  set (w1 := {| table := table w; calls := calls w ++ [CallQuery q] |}).
  assert (Hres : Services.ResolveIDByProvider repo (w, n) pt sub =
                 ((w1, n), (EmptyAccountID, Some (Sentinel ErrAccountNotFound)))).
  { simpl. unfold Repository.ResolveIDByProvider. simpl. unfold ddbQuery. simpl. by rewrite Hid. }
  assert (Hf : forallb (fun p => evalCond (PutCondition p) (table w1 !! itemKey (PutItem p)))
                 (CreateTransactItems tbl (GenerateID n) now pt sub) = true).
  { simpl. rewrite !itemKey_MarshalMap. simpl. by rewrite Hid, Hacc. }
  set (w2 := {| table := applyPuts (table w1) (CreateTransactItems tbl (GenerateID n) now pt sub);
                calls := calls w1 ++ [CallTransact (CreateTransactItems tbl (GenerateID n) now pt sub)] |}).
  assert (Hcr : Services.Create repo (w1, n) pt sub = ((w2, (Datatypes.S n)), (GenerateID n, None))).
  { simpl. by rewrite Create_accepted. }
  assert (Hr1 : Services.Authenticate registry repo (w, n) input =
                ((w2, (Datatypes.S n)), [Services.EvProviderAuthenticate pt; Services.EvResolve pt sub;
                             Services.EvCreate pt sub],
                 Ok {| Services.AccountID := GenerateID n; Services.IsNew := true |})).
  { unfold Services.Authenticate, factory_Get. fold pt. rewrite Hreg, Hauth, Hres.
    cbn [errors_Is]. rewrite bool_decide_eq_true_2 by done. by rewrite Hcr. }
  set (w3 := {| table := table w2; calls := calls w2 ++ [CallQuery q] |}).
  assert (Hres2 : Services.ResolveIDByProvider repo (w2, (Datatypes.S n)) pt sub =
                  ((w3, (Datatypes.S n)), (GenerateID n, None))).
  { assert (Hlk := ServicesProofs.applyPuts_Create_identity tbl (table w1) (GenerateID n) now pt sub).
    unfold repo. cbn [Services.ResolveIDByProvider Services.dynamoRepository].
    unfold Repository.ResolveIDByProvider. cbn [Query dynamoDBClient].
    unfold ddbQuery. cbn [QPK QSK]. change (table w2) with
      (applyPuts (table w1) (CreateTransactItems tbl (GenerateID n) now pt sub)).
    rewrite Hlk. by rewrite UnmarshalMap_MarshalMap. }
  rewrite Hr1. cbn [fst snd].
  assert (Hr2 : Services.Authenticate registry repo (w2, (Datatypes.S n)) input =
                ((w3, (Datatypes.S n)), [Services.EvProviderAuthenticate pt; Services.EvResolve pt sub],
                 Ok {| Services.AccountID := GenerateID n; Services.IsNew := false |})).
  { unfold Services.Authenticate, factory_Get. fold pt. by rewrite Hreg, Hauth, Hres2. }
  rewrite Hr2. by repeat split.
Qed.
End ServicesExtraProofs.

Module KeyFetchProofs.
Import Certs.

Lemma cacheHit_same_entry (cm1 cm2 : keyCache) now id :
  cm1 !! id = cm2 !! id -> cacheHit cm1 now id = cacheHit cm2 now id.
Proof. intros H. unfold cacheHit, Get. by rewrite H. Qed.

Lemma cacheHit_entry (cm : keyCache) now id k t :
  cm !! id = Some {| pubKey := Some k; expiresAt := Unix t |} ->
  cacheHit cm now id = if bool_decide (Unix now < Unix t) then Some k else None.
Proof. intros H. unfold cacheHit, Get. rewrite H. cbn. by case_bool_decide. Qed.

Lemma lookup_map_fold_Add (cm : keyCache) (keys : gmap string (option rsaPublicKey)) t j :
  map_fold (fun i k acc => Add acc i k t) cm keys !! j =
  match keys !! j with
  | Some k => Some {| pubKey := k; expiresAt := Unix t |}
  | None => cm !! j
  end.
Proof.
  apply (map_fold_weak_ind
           (fun (r : keyCache) m => r !! j = match m !! j with
                                            | Some k => Some {| pubKey := k; expiresAt := Unix t |}
                                            | None => cm !! j end)).
  - by rewrite lookup_empty.
  - intros i x m r Hi IH. unfold Add. destruct (decide (i = j)) as [->|Hne].
    + by rewrite !lookup_insert_eq.
    + by rewrite !lookup_insert_ne by done.
Qed.

(** X12: on a cache miss, [fetchPublicKeyByID] of the Google provider calls
    the certs endpoint and, when the certificate set lists [id] with a
    parseable PEM and the [Expires] header lies in a later Unix second,
    returns that key; until that second the following calls for [id] are
    served from the cache without calling the endpoint. *)
Theorem google_fetch_refill_then_cached CertsURL httpGet parseRFC1123 ParseRSAPublicKeyFromPEM
    (cm : keyCache) now id resp expiresAt certs pem key :
  cacheHit cm now id = None ->
  httpGet CertsURL = Ok resp ->
  parseRFC1123 (ExpiresHeader resp) = Ok expiresAt ->
  CertsBody resp = Ok certs ->
  certs !! id = Some pem ->
  ParseRSAPublicKeyFromPEM pem = Some key ->
  Unix now < Unix expiresAt ->
  let r := google_fetchPublicKeyByID CertsURL httpGet parseRFC1123 ParseRSAPublicKeyFromPEM cm now id in
  r.1.2 = true /\ r.2 = Ok key /\
  (forall later, Unix later < Unix expiresAt ->
     google_fetchPublicKeyByID CertsURL httpGet parseRFC1123 ParseRSAPublicKeyFromPEM r.1.1 later id
       = (r.1.1, false, Ok key)).
Proof.
  intros Hmiss Hget Hexp Hbody Hid Hpem Hnow r.
  set (cm' := map_fold (fun i k acc => Add acc i k expiresAt) cm (ParseRSAPublicKeyFromPEM <$> certs)).
  assert (Hlk : cm' !! id = Some {| pubKey := Some key; expiresAt := Unix expiresAt |}).
  { subst cm'. rewrite lookup_map_fold_Add, lookup_fmap, Hid. cbn. by rewrite Hpem. }
  assert (Hr : r = (cm', true, Ok key)).
  { subst r. unfold google_fetchPublicKeyByID. rewrite Hmiss, Hget, Hexp, Hbody. fold cm'.
    rewrite (cacheHit_entry cm' now id key expiresAt Hlk). by rewrite bool_decide_eq_true_2. }
  rewrite Hr. cbn. split; [done|split; [done|]].
  intros later Hl. unfold google_fetchPublicKeyByID.
  rewrite (cacheHit_entry cm' later id key expiresAt Hlk). by rewrite bool_decide_eq_true_2.
Qed.

(** X13: after a cache miss and a successful call of the certs endpoint,
    the Google [fetchPublicKeyByID] fails with "public key id '<id>' not
    found" when the certificate set does not list [id], when its PEM does
    not parse (the parse error is dropped and a nil key cached), or when the
    [Expires] header does not lie in a later Unix second than now (keys of
    an already expired response are never used). *)
Theorem google_fetch_key_unavailable CertsURL httpGet parseRFC1123 ParseRSAPublicKeyFromPEM
    (cm : keyCache) now id resp expiresAt certs :
  cacheHit cm now id = None ->
  httpGet CertsURL = Ok resp ->
  parseRFC1123 (ExpiresHeader resp) = Ok expiresAt ->
  CertsBody resp = Ok certs ->
  (certs !! id = None \/
   (exists pem, certs !! id = Some pem /\ ParseRSAPublicKeyFromPEM pem = None) \/
   Unix expiresAt <= Unix now) ->
  (google_fetchPublicKeyByID CertsURL httpGet parseRFC1123 ParseRSAPublicKeyFromPEM cm now id).2 =
    Err (Errorf ("public key id '" +:+ id +:+ "' not found") None).
Proof.
  intros Hmiss Hget Hexp Hbody Hcase.
  unfold google_fetchPublicKeyByID. rewrite Hmiss, Hget, Hexp, Hbody.
  set (cm' := map_fold (fun i k acc => Add acc i k expiresAt) cm (ParseRSAPublicKeyFromPEM <$> certs)).
  assert (Hlk := lookup_map_fold_Add cm (ParseRSAPublicKeyFromPEM <$> certs) expiresAt id).
  fold cm' in Hlk. rewrite lookup_fmap in Hlk.
  assert (Hh : cacheHit cm' now id = None).
  { destruct (certs !! id) as [pem|] eqn:Hc; cbn in Hlk.
    - destruct (ParseRSAPublicKeyFromPEM pem) as [k|] eqn:Hp.
      + rewrite (cacheHit_entry cm' now id k expiresAt Hlk).
        destruct Hcase as [[=]|[(pem' & [= <-] & Hp')|Hle]]; [congruence|].
        by rewrite bool_decide_eq_false_2 by lia.
      + unfold cacheHit, Get. rewrite Hlk. cbn. by case_bool_decide.
    - rewrite (cacheHit_same_entry cm' cm now id Hlk). done. }
  by rewrite Hh.
Qed.

Section AppleLoop.
Variable DecodeString : string -> result (list Byte.byte).

Lemma addJWKs_fails (cm : keyCache) now jwks j e :
  j ∈ jwks -> createPublicKeyFromJWK DecodeString j = Err e ->
  exists cm' e', addJWKs DecodeString cm now jwks = (cm', Some e').
Proof.
  revert cm. induction jwks as [|j' rest IH]; intros cm Hin He; [by apply elem_of_nil in Hin|].
  cbn [addJWKs]. destruct (createPublicKeyFromJWK DecodeString j') as [k|e'] eqn:Hj'; [|by eauto].
  apply elem_of_cons in Hin as [->|Hin]; [congruence|]. by apply IH.
Qed.

Lemma addJWKs_all_ok (cm : keyCache) now jwks :
  (forall j, j ∈ jwks -> exists k, createPublicKeyFromJWK DecodeString j = Ok k) ->
  exists cm', addJWKs DecodeString cm now jwks = (cm', None) /\
    forall id, (cm' !! id = cm !! id /\ ~ (exists j, j ∈ jwks /\ Kid j = id)) \/
               (exists j k, j ∈ jwks /\ Kid j = id /\ createPublicKeyFromJWK DecodeString j = Ok k /\
                  cm' !! id = Some {| pubKey := Some k; expiresAt := Unix (now + 3600 * 1000000000) |}).
Proof.
  revert cm. induction jwks as [|j rest IH]; intros cm Hall.
  - exists cm. split; [done|]. intros id. left. split; [done|]. intros (j & Hj & _).
    by apply elem_of_nil in Hj.
  - destruct (Hall j ltac:(by left)) as [k Hk]. cbn [addJWKs]. rewrite Hk.
    destruct (IH (Add cm (Kid j) (Some k) (now + 3600 * 1000000000)))
      as (cm' & Hadd & Hid); [intros j' Hj'; apply Hall; by right|].
    exists cm'. split; [done|]. intros id.
    destruct (Hid id) as [[Hlk Hnot]|(j' & k' & Hj' & Hkid & Hk' & Hlk)].
    + unfold Add in Hlk. destruct (decide (Kid j = id)) as [<-|Hne].
      * right. exists j, k. rewrite lookup_insert_eq in Hlk. repeat split; [by left|done|done].
      * left. rewrite lookup_insert_ne in Hlk by done. split; [done|].
        intros (j' & Hj' & Hkid). apply elem_of_cons in Hj' as [->|Hj']; [done|eauto].
    + right. exists j', k'. repeat split; [by right|done|done|done].
Qed.
End AppleLoop.

(** X14: on a cache miss, a JWKS answer holding a key whose [kty] is not
    "RSA" makes the Apple [fetchPublicKeyByID] fail, whatever key id is
    requested and wherever that key sits in the set. *)
Theorem apple_fetch_non_RSA_key_fails DecodeString CertsURL httpGetBody unmarshalJWKS
    (cm : keyCache) now id body jwks bad :
  cacheHit cm now id = None ->
  httpGetBody CertsURL = Ok (Ok body) ->
  unmarshalJWKS body = Ok jwks ->
  bad ∈ jwks -> Kty bad <> "RSA" ->
  exists e,
    (apple_fetchPublicKeyByID DecodeString CertsURL httpGetBody unmarshalJWKS cm now id).2 = Err e.
Proof.
  intros Hmiss Hget Hun Hin Hkty.
  assert (Hbad : createPublicKeyFromJWK DecodeString bad =
                 Err (Errorf ("expected RSA key type, got: " +:+ Kty bad) None)).
  { unfold createPublicKeyFromJWK. by rewrite bool_decide_eq_true_2. }
  destruct (addJWKs_fails DecodeString cm now jwks bad _ Hin Hbad) as (cm' & e & Hadd).
  exists e. unfold apple_fetchPublicKeyByID. by rewrite Hmiss, Hget, Hun, Hadd.
Qed.

(** X15: on a cache miss with a JWKS answer whose keys all convert, the
    Apple [fetchPublicKeyByID] returns the key of a listed JWK with the
    requested [kid], which then stays cached and is served without calling
    the endpoint while the current Unix second is before that of now plus
    one hour; if no JWK has that [kid] the call fails with "public key id
    '<id>' not found". *)
Theorem apple_fetch_refill DecodeString CertsURL httpGetBody unmarshalJWKS
    (cm : keyCache) now id body jwks :
  cacheHit cm now id = None ->
  httpGetBody CertsURL = Ok (Ok body) ->
  unmarshalJWKS body = Ok jwks ->
  (forall j, j ∈ jwks -> exists k, createPublicKeyFromJWK DecodeString j = Ok k) ->
  let r := apple_fetchPublicKeyByID DecodeString CertsURL httpGetBody unmarshalJWKS cm now id in
  ((exists j, j ∈ jwks /\ Kid j = id) ->
   exists j key, j ∈ jwks /\ Kid j = id /\ createPublicKeyFromJWK DecodeString j = Ok key /\
     r.1.2 = true /\ r.2 = Ok key /\
     (forall later, Unix later < Unix (now + 3600 * 1000000000) ->
        apple_fetchPublicKeyByID DecodeString CertsURL httpGetBody unmarshalJWKS r.1.1 later id
          = (r.1.1, false, Ok key))) /\
  (~ (exists j, j ∈ jwks /\ Kid j = id) ->
   r.2 = Err (Errorf ("public key id '" +:+ id +:+ "' not found") None)).
Proof.
  intros Hmiss Hget Hun Hall r.
  destruct (addJWKs_all_ok DecodeString cm now jwks Hall) as (cm' & Hadd & Hid).
  assert (Hr : r = match cacheHit cm' now id with
                   | Some key => (cm', true, Ok key)
                   | None => (cm', true, Err (Errorf ("public key id '" +:+ id +:+ "' not found") None))
                   end).
  { subst r. unfold apple_fetchPublicKeyByID. by rewrite Hmiss, Hget, Hun, Hadd. }
  split.
  - intros Hex. destruct (Hid id) as [[_ Hnot]|(j & k & Hj & Hkid & Hk & Hlk)]; [done|].
    exists j, k. repeat split; try done.
    + rewrite Hr. by destruct (cacheHit cm' now id).
    + rewrite Hr, (cacheHit_entry cm' now id k _ Hlk).
      rewrite bool_decide_eq_true_2; [done|]. apply CacheProofs.Unix_lt_of_second_before. lia.
    + intros later Hl. rewrite Hr, (cacheHit_entry cm' now id k _ Hlk).
      rewrite (bool_decide_eq_true_2 (Unix now < _)) by (apply CacheProofs.Unix_lt_of_second_before; lia).
      cbn. unfold apple_fetchPublicKeyByID. rewrite (cacheHit_entry cm' later id k _ Hlk).
      by rewrite bool_decide_eq_true_2.
  - intros Hnot. destruct (Hid id) as [[Hlk _]|(j & k & Hj & Hkid & _)]; [|by exfalso; eauto].
    rewrite Hr. by rewrite (cacheHit_same_entry cm' cm now id Hlk), Hmiss.
Qed.
End KeyFetchProofs.

Module JWKProofs.

Lemma SetBytes_acc (l : list Byte.byte) (acc : Z) :
  fold_left (fun acc x => acc * 256 + Z.of_N (Byte.to_N x)) l acc =
  acc * 256 ^ Z.of_nat (length l) + SetBytes l.
Proof.
  unfold SetBytes. revert acc. induction l as [|x l IH]; intros acc; cbn [fold_left length].
  - lia.
  - rewrite IH, (IH (0 * 256 + Z.of_N (Byte.to_N x))).
    rewrite Nat2Z.inj_succ, Z.pow_succ_r by lia. lia.
Qed.

Lemma SetBytes_bounds (l : list Byte.byte) : 0 <= SetBytes l < 256 ^ Z.of_nat (length l).
Proof.
  induction l as [|x l IH]; [cbn; lia|].
  unfold SetBytes. cbn [fold_left length]. rewrite SetBytes_acc.
  pose proof (Byte.to_N_bounded x). rewrite Nat2Z.inj_succ, Z.pow_succ_r by lia.
  assert (0 <= Z.of_N (Byte.to_N x) <= 255) by lia. nia.
Qed.

Lemma string_append_nil_r (a : string) : a +:+ "" = a.
Proof.
  induction a as [|c a IH]; [done|].
  change (String c a +:+ "") with (String c (a +:+ "")). by rewrite IH.
Qed.

Lemma string_length_append (a b : string) :
  String.length (a +:+ b) = (String.length a + String.length b)%nat.
Proof. induction a as [|c a IH]; simpl; [done|f_equal; exact IH]. Qed.

(** X16: [createPublicKeyFromJWK] rejects a JWK whose [kty] is not "RSA"
    with "expected RSA key type, got: <kty>"; for an RSA JWK whose modulus
    and exponent decode, the modulus is the big-endian unsigned value of
    its bytes (leading zero bytes do not change it) and the exponent is the
    big-endian value of its bytes when they are at most seven; longer
    exponents are cut to their low 64 bits (bytes 01 00 00 00 00 00 00 00
    01 give exponent 1). *)
Theorem createPublicKeyFromJWK_decoding (DecodeString : string -> result (list Byte.byte))
    (jwk : appleJWK) :
  (Kty jwk <> "RSA" ->
   createPublicKeyFromJWK DecodeString jwk =
     Err (Errorf ("expected RSA key type, got: " +:+ Kty jwk) None)) /\
  (forall nb eb, Kty jwk = "RSA" ->
     base64URLDecode DecodeString (jwk_N jwk) = Ok nb ->
     base64URLDecode DecodeString (jwk_E jwk) = Ok eb ->
     createPublicKeyFromJWK DecodeString jwk =
       Ok {| rsa_N := SetBytes nb; rsa_E := Int64 (SetBytes eb) |} /\
     0 <= SetBytes nb < 256 ^ Z.of_nat (length nb) /\
     ((length eb <= 7)%nat -> Int64 (SetBytes eb) = SetBytes eb)) /\
  (forall nb, SetBytes (Byte.x00 :: nb) = SetBytes nb) /\
  Int64 (SetBytes [Byte.x01; Byte.x00; Byte.x00; Byte.x00; Byte.x00; Byte.x00; Byte.x00;
                   Byte.x00; Byte.x01]) = 1.
Proof.
  split; [|split; [|split]].
  - intros H. unfold createPublicKeyFromJWK. by rewrite bool_decide_eq_true_2.
  - intros nb eb Hk Hn He. split; [|split; [apply SetBytes_bounds|]].
    + unfold createPublicKeyFromJWK. rewrite bool_decide_eq_false_2 by tauto. by rewrite Hn, He.
    + intros Hlen. pose proof (SetBytes_bounds eb) as [H0 H1].
      assert (256 ^ Z.of_nat (length eb) <= 256 ^ 7) by (apply Z.pow_le_mono_r; lia).
      unfold Int64. rewrite Z.mod_small by lia.
      rewrite bool_decide_eq_false_2 by lia. reflexivity.
  - intros nb. unfold SetBytes at 1. cbn [fold_left]. rewrite SetBytes_acc. cbn. lia.
  - reflexivity.
Qed.

(** X17: [base64URLDecode] hands the decoder its input followed by "", "="
    or "==": padded to a length that is a multiple of four, except for
    inputs whose length is one more than a multiple of four, which are
    passed unpadded. *)
Theorem base64URLPadding_shape (data : string) :
  exists pad, pad ∈ [""; "="; "=="] /\ base64URLPadding data = data +:+ pad /\
  (String.length (base64URLPadding data) mod 4 =
     if bool_decide (String.length data mod 4 = 1) then 1 else 0)%nat.
Proof.
  unfold base64URLPadding.
  pose proof (Nat.mod_upper_bound (String.length data) 4 ltac:(lia)) as Hb.
  pose proof (Nat.div_mod_eq (String.length data) 4) as Hd.
  destruct (String.length data mod 4)%nat as [|[|[|[|m]]]] eqn:Hm; [| | | |lia].
  - exists "". rewrite string_append_nil_r. repeat split; [set_solver|]. by rewrite Hm.
  - exists "". rewrite string_append_nil_r. repeat split; [set_solver|]. by rewrite Hm.
  - exists "==". repeat split; [set_solver|]. rewrite string_length_append. cbn [String.length].
    rewrite Nat.Div0.add_mod, Hm. reflexivity.
  - exists "=". repeat split; [set_solver|]. rewrite string_length_append. cbn [String.length].
    rewrite Nat.Div0.add_mod, Hm. reflexivity.
Qed.
End JWKProofs.

Module ProviderExtraProofs.

(** The fields the Apple provider requires, in the order it checks them. *)
Definition appleRequiredFields : list string :=
  [AppleIdentityTokenFieldName; AppleAuthorizationCodeFieldName; AppleUserIDFieldName;
   AppleNonceFieldName; AppleEmailFieldName].

Definition firstMissingField (data : gmap string string) : option string :=
  List.find (fun f => bool_decide (data !! f = None)) appleRequiredFields.

(** X18: the Apple provider reports the first absent field among
    identityToken, authorizationCode, userID, nonce and email, in that
    order, with "missing required field: <name>", an error that matches no
    sentinel (in particular not [ErrMissingRequiredProviderAuthData]); the
    Google provider reports an absent [token] with the
    [ErrMissingRequiredProviderAuthData] sentinel itself. *)
Theorem missing_auth_data_errors (acreds : AppleCredentials) aex aparse
    (gcreds : GoogleCredentials) gex gparse (data : gmap string string) (name : string) :
  firstMissingField data = Some name ->
  apple_Authenticate acreds aex aparse data = Err (missingField name) /\
  (forall s, errors_Is (missingField name) s = false) /\
  (data !! GoogleAuthCodeFieldName = None ->
   google_Authenticate gcreds gex gparse data = Err (Sentinel ErrMissingRequiredProviderAuthData) /\
   errors_Is (Sentinel ErrMissingRequiredProviderAuthData) ErrMissingRequiredProviderAuthData = true).
Proof.
  intros Hf. split; [|split; [done|]].
  - unfold firstMissingField, appleRequiredFields in Hf. cbn [List.find] in Hf.
    unfold apple_Authenticate.
    destruct (data !! AppleIdentityTokenFieldName) eqn:H1;
      [rewrite (bool_decide_eq_false_2 (Some _ = None)) in Hf by done
      |rewrite (bool_decide_eq_true_2 (None = None)) in Hf by done; by injection Hf as <-].
    destruct (data !! AppleAuthorizationCodeFieldName) eqn:H2;
      [rewrite (bool_decide_eq_false_2 (Some _ = None)) in Hf by done
      |rewrite (bool_decide_eq_true_2 (None = None)) in Hf by done; by injection Hf as <-].
    destruct (data !! AppleUserIDFieldName) eqn:H3;
      [rewrite (bool_decide_eq_false_2 (Some _ = None)) in Hf by done
      |rewrite (bool_decide_eq_true_2 (None = None)) in Hf by done; by injection Hf as <-].
    destruct (data !! AppleNonceFieldName) eqn:H4;
      [rewrite (bool_decide_eq_false_2 (Some _ = None)) in Hf by done
      |rewrite (bool_decide_eq_true_2 (None = None)) in Hf by done; by injection Hf as <-].
    destruct (data !! AppleEmailFieldName) eqn:H5;
      [rewrite (bool_decide_eq_false_2 (Some _ = None)) in Hf by done; discriminate
      |rewrite (bool_decide_eq_true_2 (None = None)) in Hf by done; by injection Hf as <-].
  - intros Hg. unfold google_Authenticate. rewrite Hg. split; [done|].
    cbn. by apply bool_decide_eq_true_2.
Qed.

(** X19: the Apple provider checks that the [identityToken] field is present
    but never reads its value: replacing it by any other string does not
    change the outcome (the token verified is the one returned by the code
    exchange). *)
Theorem apple_identityToken_value_unused (creds : AppleCredentials) ex parse
    (data : gmap string string) (v : string) :
  is_Some (data !! AppleIdentityTokenFieldName) ->
  apple_Authenticate creds ex parse (<[AppleIdentityTokenFieldName := v]> data) =
  apple_Authenticate creds ex parse data.
Proof.
  intros [v0 Hv0]. unfold apple_Authenticate.
  rewrite lookup_insert_eq, Hv0.
  unfold AppleIdentityTokenFieldName, AppleAuthorizationCodeFieldName, AppleUserIDFieldName,
    AppleNonceFieldName, AppleEmailFieldName.
  rewrite !lookup_insert_ne by discriminate. reflexivity.
Qed.

(** X20: an Apple authentication succeeds with subject [sub] only if the
    client's [userID] field is [sub], the [authorizationCode] exchanges for
    an identity token the JWT library accepts, whose subject is [sub], whose
    issuer and audience are the expected ones, whose nonce is the client's
    [nonce] field, and whose email equals the [email] field unless that
    field is empty. *)
Theorem apple_success_is_verified (creds : AppleCredentials) ex parse
    (data : gmap string string) (sub : string) :
  apple_Authenticate creds ex parse data = Ok sub ->
  data !! AppleUserIDFieldName = Some sub /\
  exists code resp p email,
    data !! AppleAuthorizationCodeFieldName = Some code /\ ex code = Ok resp /\
    parse (IDToken resp) = Ok p /\ p_sub p = sub /\
    p_iss p = a_IDTokenExpectedIssuer creds /\ p_aud p = a_IDTokenExpectedAudience creds /\
    data !! AppleNonceFieldName = Some (p_nonce p) /\
    data !! AppleEmailFieldName = Some email /\ (email = "" \/ email = p_email p).
Proof.
  unfold apple_Authenticate.
  destruct (data !! AppleIdentityTokenFieldName); [|discriminate].
  destruct (data !! AppleAuthorizationCodeFieldName) as [code|] eqn:Hc; [|discriminate].
  destruct (data !! AppleUserIDFieldName) as [userID|] eqn:Hu; [|discriminate].
  destruct (data !! AppleNonceFieldName) as [nonce|] eqn:Hn; [|discriminate].
  destruct (data !! AppleEmailFieldName) as [email|] eqn:He; [|discriminate].
  destruct (ex code) as [resp|] eqn:Hx; [|discriminate].
  unfold apple_verifyIDToken.
  destruct (parse (IDToken resp)) as [p|] eqn:Hp; [|discriminate].
  cbn [decodeAppleClaims ac_Issuer ac_Audience ac_Nonce ac_Email ac_Subject].
  case_bool_decide as Hi; [discriminate|].
  case_bool_decide as Ha; [discriminate|].
  case_bool_decide as Hno; [discriminate|].
  destruct (bool_decide (email <> "") && bool_decide (email <> p_email p)) eqn:Hm; [discriminate|].
  assert (Hem : email = "" \/ email = p_email p).
  { apply andb_false_iff in Hm as [Hm|Hm]; apply bool_decide_eq_false_1, dec_stable in Hm; auto. }
  clear Hm. cbn.
  case_bool_decide as Hs; [discriminate|]. intros [= <-].
  subst nonce userID.
  split; [done|]. exists code, resp, p, email. by repeat split.
Qed.

(** X21: a Google authentication succeeds with subject [sub] only if the
    [token] field exchanges for an identity token the JWT library accepts,
    whose subject is [sub] and whose issuer and audience are the expected
    ones. *)
Theorem google_success_is_verified (creds : GoogleCredentials) ex parse
    (data : gmap string string) (sub : string) :
  google_Authenticate creds ex parse data = Ok sub ->
  exists code resp p,
    data !! GoogleAuthCodeFieldName = Some code /\ ex code = Ok resp /\
    parse (IDToken resp) = Ok p /\ p_sub p = sub /\
    p_iss p = g_IDTokenExpectedIssuer creds /\ p_aud p = g_IDTokenExpectedAud creds.
Proof.
  unfold google_Authenticate.
  destruct (data !! GoogleAuthCodeFieldName) as [code|] eqn:Hc; [|discriminate].
  destruct (ex code) as [resp|] eqn:Hx; [|discriminate].
  unfold google_verifyIDToken.
  destruct (parse (IDToken resp)) as [p|] eqn:Hp; [|discriminate].
  cbn [decodeGoogleClaims gc_Issuer gc_Audience gc_Subject].
  case_bool_decide as Hi; [discriminate|].
  case_bool_decide as Ha; [discriminate|]. intros [= <-].
  exists code, resp, p. by repeat split.
Qed.
End ProviderExtraProofs.

(* ------------------------------------------------------------------ *)
(** ** The further properties applied to concrete inputs *)

Module ExtraWitnesses.
Import Repository.

Lemma cache_miss_persists_witness :
  1 <= 5000000000 /\
  Certs.Get (Certs.Add (∅ : gmap string (@Certs.cacheEntry nat)) "k" 7%nat 1000000000) 1000000000 "k" = None /\
  Certs.Get (Certs.Add (∅ : gmap string (@Certs.cacheEntry nat)) "k" 7%nat 1000000000) 5000000000 "k" = None.
Proof.
  split; [lia|]. split; [vm_compute; reflexivity|].
  apply (CacheExtraProofs.cache_miss_persists _ "k" 1000000000 5000000000); [lia|vm_compute; reflexivity].
Defined.

Lemma AccountProviderSK_injective_on_provider_types_witness :
  (AccountProviderSK ProviderTypeGoogle "a#b" = AccountProviderSK ProviderTypeGuest "a#b" <->
   ProviderTypeGoogle = ProviderTypeGuest /\ "a#b" = "a#b") /\
  AccountProviderSK "x#y" "z" = AccountProviderSK "x" "y#z".
Proof.
  apply KeyEncodingProofs.AccountProviderSK_injective_on_provider_types;
    vm_compute; [right; left | left].
Defined.

Lemma Create_then_Resolve_and_duplicate_witness :
  (Create dynamoDBClient Scenario.tableName Scenario.emptyWorld "acct-1" Scenario.now
     ProviderTypeApple "apple-sub-7").2 = ("acct-1", None) /\
  (let w1 := (Create dynamoDBClient Scenario.tableName Scenario.emptyWorld "acct-1" Scenario.now
                ProviderTypeApple "apple-sub-7").1 in
   (ResolveIDByProvider dynamoDBClient Scenario.tableName w1 ProviderTypeApple "apple-sub-7").2
     = ("acct-1", None) /\
   (forall accountID' now',
      exists e, (Create dynamoDBClient Scenario.tableName w1 accountID' now' ProviderTypeApple "apple-sub-7").2
                  = (EmptyAccountID, Some e) /\
                errors_Is e ErrProviderIDOrAccountAlreadyExists = true /\
                table (Create dynamoDBClient Scenario.tableName w1 accountID' now' ProviderTypeApple "apple-sub-7").1
                  = table w1)).
Proof.
  split; [vm_compute; reflexivity|].
  apply StoreExtraProofs.Create_then_Resolve_and_duplicate. vm_compute. reflexivity.
Defined.

Lemma Create_cancellation_classification_witness :
  exists e', Create Scenario.conflictClient Scenario.tableName tt "acct-1" Scenario.now
               ProviderTypeGoogle "google-sub-42" = (tt, (EmptyAccountID, Some e')) /\
    (forall s, errors_Is e' s = bool_decide ("TransactionConflict" = "ConditionalCheckFailed" /\
                                             s = ErrProviderIDOrAccountAlreadyExists)).
Proof.
  apply (EnrichExtraProofs.Create_cancellation_classification Scenario.conflictClient
           Scenario.tableName tt tt "acct-1" Scenario.now ProviderTypeGoogle "google-sub-42"
           (Errorf "operation error DynamoDB: TransactWriteItems, https response error: "
              (Some (TransactionCanceled
                       [(Some "None", None);
                        (Some "TransactionConflict", Some "Transaction is ongoing for the item")])))
           [(Some "None", None)] "TransactionConflict" (Some "Transaction is ongoing for the item") []).
  - reflexivity.
  - reflexivity.
  - constructor; [unfold EnrichExtraProofs.reasonPassed; right; reflexivity|constructor].
  - discriminate.
Defined.

Lemma Authenticate_error_paths_witness :
  Scenario.registry !! ProviderTypeGoogle = Some Scenario.googleProvider /\
  (forall e, Authenticate Scenario.googleProvider Scenario.googleData = Err e ->
     Services.Authenticate Scenario.registry Scenario.repo (Scenario.emptyWorld, 0%nat)
       Scenario.googleInput =
       ((Scenario.emptyWorld, 0%nat), [Services.EvProviderAuthenticate ProviderTypeGoogle], Err e)) /\
  (forall S s1 acc err, Authenticate Scenario.googleProvider Scenario.googleData = Ok S ->
     Services.ResolveIDByProvider Scenario.repo (Scenario.emptyWorld, 0%nat) ProviderTypeGoogle S
       = (s1, (acc, Some err)) ->
     errors_Is err ErrAccountNotFound = false ->
     Services.Authenticate Scenario.registry Scenario.repo (Scenario.emptyWorld, 0%nat)
       Scenario.googleInput =
       (s1, [Services.EvProviderAuthenticate ProviderTypeGoogle; Services.EvResolve ProviderTypeGoogle S],
        Err (Errorf "failed to resolve account ID: " (Some err)))) /\
  (forall S s1 acc0 err s2 acc e, Authenticate Scenario.googleProvider Scenario.googleData = Ok S ->
     Services.ResolveIDByProvider Scenario.repo (Scenario.emptyWorld, 0%nat) ProviderTypeGoogle S
       = (s1, (acc0, Some err)) ->
     errors_Is err ErrAccountNotFound = true ->
     Services.Create Scenario.repo s1 ProviderTypeGoogle S = (s2, (acc, Some e)) ->
     Services.Authenticate Scenario.registry Scenario.repo (Scenario.emptyWorld, 0%nat)
       Scenario.googleInput =
       (s2, [Services.EvProviderAuthenticate ProviderTypeGoogle; Services.EvResolve ProviderTypeGoogle S;
             Services.EvCreate ProviderTypeGoogle S],
        Err (Errorf "failed to create account: " (Some e)))).
Proof.
  split; [vm_compute; reflexivity|].
  apply (ServicesExtraProofs.Authenticate_error_paths Scenario.registry Scenario.repo
           (Scenario.emptyWorld, 0%nat) Scenario.googleInput Scenario.googleProvider).
  vm_compute. reflexivity.
Defined.

Lemma Authenticate_dynamo_new_then_returning_witness :
  let r1 := Services.Authenticate Scenario.registry Scenario.repo (Scenario.emptyWorld, 0%nat)
              Scenario.googleInput in
  let r2 := Services.Authenticate Scenario.registry Scenario.repo r1.1.1 Scenario.googleInput in
  r1.2 = Ok {| Services.AccountID := "acct-0"; Services.IsNew := true |} /\
  r2.2 = Ok {| Services.AccountID := "acct-0"; Services.IsNew := false |} /\
  r2.1.1.2 = 1%nat /\ table r2.1.1.1 = table r1.1.1.1.
Proof.
  apply (ServicesExtraProofs.Authenticate_dynamo_new_then_returning Scenario.tableName
           Scenario.GenerateID Scenario.now Scenario.registry Scenario.googleInput
           Scenario.googleProvider "google-sub-42" Scenario.emptyWorld 0%nat);
    vm_compute; reflexivity.
Defined.

Lemma google_fetch_refill_then_cached_witness :
  let r := google_fetchPublicKeyByID KeyScenario.googleCertsURL KeyScenario.googleHttpGet
             KeyScenario.parseRFC1123 KeyScenario.ParseRSAPublicKeyFromPEM KeyScenario.emptyCache
             KeyScenario.now "kid-1" in
  r.1.2 = true /\ r.2 = Ok KeyScenario.googleKey /\
  (forall later, Certs.Unix later < Certs.Unix KeyScenario.inOneHour ->
     google_fetchPublicKeyByID KeyScenario.googleCertsURL KeyScenario.googleHttpGet
       KeyScenario.parseRFC1123 KeyScenario.ParseRSAPublicKeyFromPEM r.1.1 later "kid-1"
       = (r.1.1, false, Ok KeyScenario.googleKey)).
Proof.
  apply (KeyFetchProofs.google_fetch_refill_then_cached _ _ _ _ _ _ _
           {| ExpiresHeader := "Sun, 01 Jun 2025 13:00:00 GMT";
              CertsBody := Ok (<["kid-1" := "PEM-1"]> (<["kid-2" := "not a pem"]> ∅)) |}
           KeyScenario.inOneHour (<["kid-1" := "PEM-1"]> (<["kid-2" := "not a pem"]> ∅)) "PEM-1");
    vm_compute; reflexivity.
Defined.

Lemma google_fetch_key_unavailable_witness :
  (google_fetchPublicKeyByID KeyScenario.googleCertsURL KeyScenario.googleHttpGet
     KeyScenario.parseRFC1123 KeyScenario.ParseRSAPublicKeyFromPEM KeyScenario.emptyCache
     KeyScenario.now "kid-2").2 =
    Err (Errorf ("public key id '" +:+ "kid-2" +:+ "' not found") None).
Proof.
  apply (KeyFetchProofs.google_fetch_key_unavailable _ _ _ _ _ _ _
           {| ExpiresHeader := "Sun, 01 Jun 2025 13:00:00 GMT";
              CertsBody := Ok (<["kid-1" := "PEM-1"]> (<["kid-2" := "not a pem"]> ∅)) |}
           KeyScenario.inOneHour (<["kid-1" := "PEM-1"]> (<["kid-2" := "not a pem"]> ∅)));
    try (vm_compute; reflexivity).
  right. left. exists "not a pem". split; vm_compute; reflexivity.
Defined.

Lemma apple_fetch_non_RSA_key_fails_witness :
  exists e, (apple_fetchPublicKeyByID KeyScenario.DecodeString KeyScenario.appleCertsURL
               KeyScenario.appleHttpGetBody KeyScenario.unmarshalWithEC KeyScenario.emptyCache
               KeyScenario.now "kid-a").2 = Err e.
Proof.
  apply (KeyFetchProofs.apple_fetch_non_RSA_key_fails _ _ _ _ _ _ _ "jwks"
           [KeyScenario.rsaJWK "kid-a"; KeyScenario.ecJWK; KeyScenario.rsaJWK "kid-b"] KeyScenario.ecJWK).
  - vm_compute. reflexivity.
  - reflexivity.
  - reflexivity.
  - right. left.
  - discriminate.
Defined.

Lemma apple_fetch_refill_witness :
  let r := apple_fetchPublicKeyByID KeyScenario.DecodeString KeyScenario.appleCertsURL
             KeyScenario.appleHttpGetBody KeyScenario.unmarshalRSAOnly KeyScenario.emptyCache
             KeyScenario.now "kid-b" in
  ((exists j, j ∈ [KeyScenario.rsaJWK "kid-a"; KeyScenario.rsaJWK "kid-b"] /\ Kid j = "kid-b") ->
   exists j key, j ∈ [KeyScenario.rsaJWK "kid-a"; KeyScenario.rsaJWK "kid-b"] /\ Kid j = "kid-b" /\
     createPublicKeyFromJWK KeyScenario.DecodeString j = Ok key /\
     r.1.2 = true /\ r.2 = Ok key /\
     (forall later, Certs.Unix later < Certs.Unix (KeyScenario.now + 3600 * 1000000000) ->
        apple_fetchPublicKeyByID KeyScenario.DecodeString KeyScenario.appleCertsURL
          KeyScenario.appleHttpGetBody KeyScenario.unmarshalRSAOnly r.1.1 later "kid-b"
          = (r.1.1, false, Ok key))) /\
  (~ (exists j, j ∈ [KeyScenario.rsaJWK "kid-a"; KeyScenario.rsaJWK "kid-b"] /\ Kid j = "kid-b") ->
   r.2 = Err (Errorf ("public key id '" +:+ "kid-b" +:+ "' not found") None)).
Proof.
  apply (KeyFetchProofs.apple_fetch_refill _ _ _ _ _ _ _ "jwks").
  - vm_compute. reflexivity.
  - reflexivity.
  - reflexivity.
  - intros j Hj. apply elem_of_cons in Hj as [->|Hj]; [eexists; vm_compute; reflexivity|].
    apply list_elem_of_singleton in Hj as ->. eexists; vm_compute; reflexivity.
Defined.

Lemma missing_auth_data_errors_witness :
  let data := <["identityToken" := "raw"]> (<["authorizationCode" := "c1"]> ∅) in
  ProviderExtraProofs.firstMissingField data = Some AppleUserIDFieldName /\
  apple_Authenticate Scenario.appleCreds Scenario.appleExchange Scenario.appleParse data
    = Err (missingField AppleUserIDFieldName) /\
  (forall s, errors_Is (missingField AppleUserIDFieldName) s = false) /\
  (data !! GoogleAuthCodeFieldName = None ->
   google_Authenticate Scenario.googleCreds Scenario.googleExchange Scenario.googleParse data
     = Err (Sentinel ErrMissingRequiredProviderAuthData) /\
   errors_Is (Sentinel ErrMissingRequiredProviderAuthData) ErrMissingRequiredProviderAuthData = true).
Proof.
  intros data. split; [vm_compute; reflexivity|].
  apply ProviderExtraProofs.missing_auth_data_errors. vm_compute. reflexivity.
Defined.

Lemma apple_identityToken_value_unused_witness :
  is_Some (Scenario.appleData "" !! AppleIdentityTokenFieldName) /\
  apple_Authenticate Scenario.appleCreds Scenario.appleExchange Scenario.appleParse
    (<[AppleIdentityTokenFieldName := "anything"]> (Scenario.appleData "")) =
  apple_Authenticate Scenario.appleCreds Scenario.appleExchange Scenario.appleParse
    (Scenario.appleData "").
Proof.
  assert (H : is_Some (Scenario.appleData "" !! AppleIdentityTokenFieldName))
    by (vm_compute; eexists; reflexivity).
  split; [exact H|]. exact (ProviderExtraProofs.apple_identityToken_value_unused _ _ _ _ _ H).
Defined.

Lemma apple_success_is_verified_witness :
  apple_Authenticate Scenario.appleCreds Scenario.appleExchange Scenario.appleParse
    (Scenario.appleData "") = Ok "apple-sub-7" /\
  Scenario.appleData "" !! AppleUserIDFieldName = Some "apple-sub-7" /\
  exists code resp p email,
    Scenario.appleData "" !! AppleAuthorizationCodeFieldName = Some code /\
    Scenario.appleExchange code = Ok resp /\
    Scenario.appleParse (IDToken resp) = Ok p /\ p_sub p = "apple-sub-7" /\
    p_iss p = a_IDTokenExpectedIssuer Scenario.appleCreds /\
    p_aud p = a_IDTokenExpectedAudience Scenario.appleCreds /\
    Scenario.appleData "" !! AppleNonceFieldName = Some (p_nonce p) /\
    Scenario.appleData "" !! AppleEmailFieldName = Some email /\ (email = "" \/ email = p_email p).
Proof.
  assert (H : apple_Authenticate Scenario.appleCreds Scenario.appleExchange Scenario.appleParse
                (Scenario.appleData "") = Ok "apple-sub-7") by (vm_compute; reflexivity).
  split; [exact H|]. exact (ProviderExtraProofs.apple_success_is_verified _ _ _ _ _ H).
Defined.

Lemma google_success_is_verified_witness :
  google_Authenticate Scenario.googleCreds Scenario.googleExchange Scenario.googleParse
    Scenario.googleData = Ok "google-sub-42" /\
  exists code resp p,
    Scenario.googleData !! GoogleAuthCodeFieldName = Some code /\ Scenario.googleExchange code = Ok resp /\
    Scenario.googleParse (IDToken resp) = Ok p /\ p_sub p = "google-sub-42" /\
    p_iss p = g_IDTokenExpectedIssuer Scenario.googleCreds /\
    p_aud p = g_IDTokenExpectedAud Scenario.googleCreds.
Proof.
  assert (H : google_Authenticate Scenario.googleCreds Scenario.googleExchange Scenario.googleParse
                Scenario.googleData = Ok "google-sub-42") by (vm_compute; reflexivity).
  split; [exact H|]. exact (ProviderExtraProofs.google_success_is_verified _ _ _ _ _ H).
Defined.

End ExtraWitnesses.
